(** * Minimal habit counters: period keys, rollover and section streaks

    A shallow embedding of [src/App.tsx].  The React component keeps two
    pieces of state, the item collection and the section streaks; every
    handler of the component is modelled as a function on that pair.

    JavaScript numbers are modelled as integers ([Z]); this is exact for
    the values the program computes as long as they stay below 2^53.
    States that hold a fraction (a target of 2.5 typed into the edit
    form), an infinite number or NaN have no counterpart in the model;
    the statements say so where it matters.
    A [Date] is modelled by its local calendar day and the time within
    that day; the host time zone enters through one function, [LocalTZA],
    which the runtime uses to convert a local time to a time value. *)

From Stdlib Require Import ZArith Lia Bool Ascii.
From stdpp Require Import base list strings pretty.

Local Open Scope Z_scope.

(** ** JavaScript arithmetic helpers *)

(** [x || d] on numbers: [d] replaces a falsy [x] (0; NaN is not an integer). *)
Definition js_or (x d : Z) : Z := if x =? 0 then d else x.

(** [Number(v) || d] where [None] stands for a [Number(v)] that is NaN. *)
Definition number_or (v : option Z) (d : Z) : Z :=
  match v with
  | Some x => js_or x d
  | None => d
  end.

(** [Math.ceil(a / b)] for a positive divisor [b]. *)
Definition Math_ceil_div (a b : Z) : Z := - ((- a) / b).

(** ** The runtime's calendar (ECMAScript, Date objects)

    Day numbers count days from 1970-01-01; the definitions follow the
    abstract operations of the language specification. *)

Definition msPerDay : Z := 86400000.

Definition DayFromYear (y : Z) : Z :=
  365 * (y - 1970) + (y - 1969) / 4 - (y - 1901) / 100 + (y - 1601) / 400.

Definition DaysInYear (y : Z) : Z :=
  if negb (y mod 4 =? 0) then 365
  else if negb (y mod 100 =? 0) then 366
  else if negb (y mod 400 =? 0) then 365
  else 366.

Definition InLeapYear (y : Z) : Z := if DaysInYear y =? 366 then 1 else 0.

(** The largest [y] with [DayFromYear y <= day]; the estimate is at most
    one year off (lemma [YearFromDay_spec]). *)
Definition YearFromDay (day : Z) : Z :=
  let y0 := 1970 + (400 * day) / 146097 in
  if DayFromYear (y0 + 1) <=? day then y0 + 1
  else if DayFromYear y0 <=? day then y0
  else y0 - 1.

Definition DayWithinYear (day : Z) : Z := day - DayFromYear (YearFromDay day).

(** Day within the year on which month [m] (0..11) starts. *)
Definition monthStart (leap m : Z) : Z :=
  match m with
  | 0 => 0
  | 1 => 31
  | 2 => 59 + leap
  | 3 => 90 + leap
  | 4 => 120 + leap
  | 5 => 151 + leap
  | 6 => 181 + leap
  | 7 => 212 + leap
  | 8 => 243 + leap
  | 9 => 273 + leap
  | 10 => 304 + leap
  | _ => 334 + leap
  end.

Definition MonthFromDay (day : Z) : Z :=
  let leap := InLeapYear (YearFromDay day) in
  let dwy := DayWithinYear day in
  if dwy <? 31 then 0
  else if dwy <? 59 + leap then 1
  else if dwy <? 90 + leap then 2
  else if dwy <? 120 + leap then 3
  else if dwy <? 151 + leap then 4
  else if dwy <? 181 + leap then 5
  else if dwy <? 212 + leap then 6
  else if dwy <? 243 + leap then 7
  else if dwy <? 273 + leap then 8
  else if dwy <? 304 + leap then 9
  else if dwy <? 334 + leap then 10
  else 11.

Definition DateFromDay (day : Z) : Z :=
  DayWithinYear day
  - monthStart (InLeapYear (YearFromDay day)) (MonthFromDay day) + 1.

(** 1970-01-01 was a Thursday; Sunday is 0. *)
Definition WeekDay (day : Z) : Z := (day + 4) mod 7.

(** [MakeDay(year, month, date)]: months outside 0..11 carry into the year
    and a date outside the month carries into the neighbouring months. *)
Definition MakeDay (year month date : Z) : Z :=
  let ym := year + month / 12 in
  let mn := month mod 12 in
  DayFromYear ym + monthStart (InLeapYear ym) mn + date - 1.

(** The [Date] constructor reads a year in 0..99 as 1900 + year. *)
Definition MakeFullYear (y : Z) : Z :=
  if (0 <=? y) && (y <=? 99) then 1900 + y else y.

(** A date object: the local calendar day and the milliseconds elapsed in
    that day. *)
Record Date := mkDate { localDay : Z; msInDay : Z }.

Definition getFullYear (d : Date) : Z := YearFromDay (localDay d).
Definition getMonth (d : Date) : Z := MonthFromDay (localDay d).
Definition getDate (d : Date) : Z := DateFromDay (localDay d).
Definition getDay (d : Date) : Z := WeekDay (localDay d).

(** [new Date(y, m, d)]: local midnight of the given calendar day.  Where a
    change of the clock skips that midnight the runtime answers with a
    later time of the day; hosts with such days are outside the model. *)
Definition newDate (y m d : Z) : Date :=
  mkDate (MakeDay (MakeFullYear y) m d) 0.

(** [date.setDate(x)], returning the updated object. *)
Definition setDate (date : Date) (x : Z) : Date :=
  mkDate (MakeDay (getFullYear date) (getMonth date) x) (msInDay date).

(** ** Types (App.tsx, lines 18-43) *)

Inductive Period := Daily | Weekly | Monthly.

#[global] Instance Period_eq_dec : EqDecision Period.
Proof. solve_decision. Defined.

Definition PERIODS : list Period := [Daily; Weekly; Monthly].

Module Item.
Record t := mk {
  id : string;
  title : string;
  period : Period;
  count : Z;
  target : Z;
  periodKey : string;
  streak : Z;
  bestStreak : Z
}.
End Item.

(** [Partial<Item>]: the fields present in a patch object. *)
Module Patch.
Record t := mk {
  id : option string;
  title : option string;
  period : option Period;
  count : option Z;
  target : option Z;
  periodKey : option string;
  streak : option Z;
  bestStreak : option Z
}.
End Patch.

(** [{ ...i, ...patch }] *)
Definition spread (i : Item.t) (patch : Patch.t) : Item.t :=
  {| Item.id := default (Item.id i) (Patch.id patch);
     Item.title := default (Item.title i) (Patch.title patch);
     Item.period := default (Item.period i) (Patch.period patch);
     Item.count := default (Item.count i) (Patch.count patch);
     Item.target := default (Item.target i) (Patch.target patch);
     Item.periodKey := default (Item.periodKey i) (Patch.periodKey patch);
     Item.streak := default (Item.streak i) (Patch.streak patch);
     Item.bestStreak := default (Item.bestStreak i) (Patch.bestStreak patch) |}.

Record SectionStreaks := mkSectionStreaks {
  daily : Z;
  weekly : Z;
  monthly : Z;
  bestDaily : Z;
  bestWeekly : Z;
  bestMonthly : Z
}.

(** The component state: [items] and [sectionStreaks] of [useState]. *)
Record Store := mkStore {
  items : list Item.t;
  sectionStreaks : SectionStreaks
}.

(** The streak record of one period kind. *)
Definition current (p : Period) (s : SectionStreaks) : Z :=
  match p with Daily => daily s | Weekly => weekly s | Monthly => monthly s end.

Definition best (p : Period) (s : SectionStreaks) : Z :=
  match p with
  | Daily => bestDaily s | Weekly => bestWeekly s | Monthly => bestMonthly s
  end.

(** ** Storage (App.tsx, lines 89-185)

    What [safeGet] followed by [JSON.parse] yields for one key of
    localStorage: the key is absent (or the stored text is empty, or the
    storage itself is unavailable), the text makes the loader throw, or it
    parses to a value of the expected shape. *)
Inductive Stored (A : Type) :=
  | Absent
  | Unparsable
  | Parsed (a : A).
Arguments Absent {A}.
Arguments Unparsable {A}.
Arguments Parsed {A} a.

(** A stored item as parsed from JSON: older schemas lack some fields.
    A numeric field is [None] when [Number] of it is NaN (missing or not a
    number); [periodKey] is [None] when it is null or undefined. *)
Module RawItem.
Record t := mk {
  id : string;
  title : string;
  period : Period;
  count : option Z;
  target : option Z;
  periodKey : option string;
  streak : option Z;
  bestStreak : option Z
}.
End RawItem.

(** The stored section streaks as parsed from JSON; a field is [None] when
    it is null or undefined. *)
Module RawStreaks.
Record t := mk {
  daily : option Z;
  weekly : option Z;
  monthly : option Z;
  bestDaily : option Z;
  bestWeekly : option Z;
  bestMonthly : option Z
}.
End RawStreaks.

(** The keys of localStorage the application reads. *)
Record LocalStorage := mkLocalStorage {
  mhc_v3 : Stored (list RawItem.t);
  mhc_v2 : Stored (list RawItem.t);
  mhc_v1 : Stored (list RawItem.t);
  mhc_section_streaks_v1 : Stored RawStreaks.t
}.

(** The host time zone: [LocalTZA tl] is the offset (local minus UTC, in
    milliseconds) in force at local time [tl]. *)
Class Host := { LocalTZA : Z -> Z }.

Section App.

Context `{Host}.

(** [date.getTime()]: the time value (UTC milliseconds) of a local time. *)
Definition getTime (d : Date) : Z :=
  let tl := localDay d * msPerDay + msInDay d in
  tl - LocalTZA tl.

(** ** Date helpers (App.tsx, lines 45-87) *)

Definition pad (n : Z) : string :=
  if n <? 10 then "0" +:+ pretty n else pretty n.

Definition getISODate (d : Date) : string :=
  pretty (getFullYear d) +:+ "-" +:+ pad (getMonth d + 1)
    +:+ "-" +:+ pad (getDate d).

Definition getISOWeek (d : Date) : string :=
  let date := newDate (getFullYear d) (getMonth d) (getDate d) in
  let day := getDay date in
  let day := if day =? 0 then 7 else day in
  let date := setDate date (getDate date + (4 - day)) in
  let yearStart := newDate (getFullYear date) 0 1 in
  let days := (getTime date - getTime yearStart) / msPerDay + 1 in
  let weekNo := Math_ceil_div days 7 in
  pretty (getFullYear date) +:+ "-W" +:+ pretty weekNo.

Definition getMonthKey (d : Date) : string :=
  pretty (getFullYear d) +:+ "-" +:+ pad (getMonth d + 1).

Definition periodKey (period : Period) (d : Date) : string :=
  match period with
  | Daily => getISODate d
  | Weekly => getISOWeek d
  | Monthly => getMonthKey d
  end.

(** ** Loading (App.tsx, lines 106-181) *)

Definition loadItems (now : Date) (ls : LocalStorage) : list Item.t :=
  match mhc_v3 ls with
  | Parsed arr =>
      map (fun it =>
        {| Item.id := RawItem.id it;
           Item.title := RawItem.title it;
           Item.period := RawItem.period it;
           Item.periodKey :=
             default (periodKey (RawItem.period it) now) (RawItem.periodKey it);
           Item.count := Z.max 0 (number_or (RawItem.count it) 0);
           Item.target := Z.max 1 (number_or (RawItem.target it) 1);
           Item.streak := default 0 (RawItem.streak it);
           Item.bestStreak := default 0 (RawItem.bestStreak it) |}) arr
  | Unparsable => []
  | Absent =>
      (* migrate v2 -> v3 *)
      match mhc_v2 ls with
      | Parsed arr =>
          map (fun it =>
            {| Item.id := RawItem.id it;
               Item.title := RawItem.title it;
               Item.period := RawItem.period it;
               Item.count := Z.max 0 (number_or (RawItem.count it) 0);
               Item.target := 1;
               Item.periodKey :=
                 default (periodKey (RawItem.period it) now)
                         (RawItem.periodKey it);
               Item.streak := default 0 (RawItem.streak it);
               Item.bestStreak := default 0 (RawItem.bestStreak it) |}) arr
      | Unparsable => []
      | Absent =>
          match mhc_v1 ls with
          | Parsed arrV1 =>
              map (fun it =>
                {| Item.id := RawItem.id it;
                   Item.title := RawItem.title it;
                   Item.period := RawItem.period it;
                   Item.count := Z.max 0 (number_or (RawItem.count it) 0);
                   Item.target := 1;
                   Item.periodKey :=
                     default (periodKey (RawItem.period it) now)
                             (RawItem.periodKey it);
                   Item.streak := 0;
                   Item.bestStreak := 0 |}) arrV1
          | Unparsable => []
          | Absent => []
          end
      end
  end.

Definition zeroStreaks : SectionStreaks := mkSectionStreaks 0 0 0 0 0 0.

Definition loadSectionStreaks (ls : LocalStorage) : SectionStreaks :=
  match mhc_section_streaks_v1 ls with
  | Absent => zeroStreaks
  | Parsed s =>
      {| daily := default 0 (RawStreaks.daily s);
         weekly := default 0 (RawStreaks.weekly s);
         monthly := default 0 (RawStreaks.monthly s);
         bestDaily := default 0 (RawStreaks.bestDaily s);
         bestWeekly := default 0 (RawStreaks.bestWeekly s);
         bestMonthly := default 0 (RawStreaks.bestMonthly s) |}
  | Unparsable => zeroStreaks
  end.

(** The initial state of the component (lines 306-307). *)
Definition initialStore (now : Date) (ls : LocalStorage) : Store :=
  {| items := loadItems now ls; sectionStreaks := loadSectionStreaks ls |}.

(** ** Rollover (App.tsx, lines 322-372) *)

(** [items.some((i) => i.period === p && periodKey(p, now) !== i.periodKey)] *)
Definition boundary (items : list Item.t) (p : Period) (now : Date) : bool :=
  existsb (fun i =>
    bool_decide (Item.period i = p)
    && bool_decide (periodKey p now <> Item.periodKey i)) items.

(** [i.count >= Math.max(1, i.target)] *)
Definition reached (i : Item.t) : bool :=
  Item.count i >=? Z.max 1 (Item.target i).

Definition allDone (items : list Item.t) (period : Period) : bool :=
  let list := List.filter (fun i => bool_decide (Item.period i = period)) items in
  if bool_decide (length list = 0%nat) then false
  else forallb reached list.

(** The updater passed to [setSectionStreaks] (lines 343-358). *)
Definition streaksUpdater
    (boundaryDaily boundaryWeekly boundaryMonthly : bool)
    (endedDailyDone endedWeeklyDone endedMonthlyDone : bool)
    (s : SectionStreaks) : SectionStreaks :=
  let '(daily, bestDaily) :=
    if boundaryDaily then
      let daily := if endedDailyDone then daily s + 1 else 0 in
      (daily, Z.max (bestDaily s) daily)
    else (daily s, bestDaily s) in
  let '(weekly, bestWeekly) :=
    if boundaryWeekly then
      let weekly := if endedWeeklyDone then weekly s + 1 else 0 in
      (weekly, Z.max (bestWeekly s) weekly)
    else (weekly s, bestWeekly s) in
  let '(monthly, bestMonthly) :=
    if boundaryMonthly then
      let monthly := if endedMonthlyDone then monthly s + 1 else 0 in
      (monthly, Z.max (bestMonthly s) monthly)
    else (monthly s, bestMonthly s) in
  mkSectionStreaks daily weekly monthly bestDaily bestWeekly bestMonthly.

(** The updater passed to [setItems] (lines 361-369), for one item. *)
Definition resetItem (now : Date) (it : Item.t) : Item.t :=
  let currentKey := periodKey (Item.period it) now in
  if bool_decide (currentKey <> Item.periodKey it) then
    spread it {| Patch.id := None; Patch.title := None; Patch.period := None;
                 Patch.count := Some 0; Patch.target := None;
                 Patch.periodKey := Some currentKey;
                 Patch.streak := None; Patch.bestStreak := None |}
  else it.

(** [rollover(now)].  The callback reads [items] from the render it was
    created in ([rendered]) to detect boundaries and completion, while the
    two state updaters run on the state current at the call ([st]). *)
Definition rollover (rendered : list Item.t) (now : Date) (st : Store) : Store :=
  let boundaryDaily := boundary rendered Daily now in
  let boundaryWeekly := boundary rendered Weekly now in
  let boundaryMonthly := boundary rendered Monthly now in
  if negb boundaryDaily && negb boundaryWeekly && negb boundaryMonthly then st
  else
    let endedDailyDone := boundaryDaily && allDone rendered Daily in
    let endedWeeklyDone := boundaryWeekly && allDone rendered Weekly in
    let endedMonthlyDone := boundaryMonthly && allDone rendered Monthly in
    {| sectionStreaks :=
         streaksUpdater boundaryDaily boundaryWeekly boundaryMonthly
           endedDailyDone endedWeeklyDone endedMonthlyDone (sectionStreaks st);
       items := map (resetItem now) (items st) |}.

(** [check]: a rollover check run by the callback of the current render,
    that is, once the state [st] has settled (lines 375-391). *)
Definition check (now : Date) (st : Store) : Store :=
  rollover (items st) now st.

(** ** Item operations (App.tsx, lines 405-439) *)

Definition setItems (f : list Item.t -> list Item.t) (st : Store) : Store :=
  {| items := f (items st); sectionStreaks := sectionStreaks st |}.

(** [trim] removes white space and line terminators at both ends.  Strings
    hold UTF-8, so a character to remove is one to three bytes long:
    U+0009 to U+000D, U+0020, U+00A0, U+1680, U+2000 to U+200A, U+2028,
    U+2029, U+202F, U+205F, U+3000 and U+FEFF. *)
Definition byte (c : Ascii.ascii) : Z := Z.of_N (Ascii.N_of_ascii c).

Definition is_space (a : Z) : bool :=
  (a =? 32) || ((9 <=? a) && (a <=? 13)).

Definition is_space2 (a b : Z) : bool := (a =? 194) && (b =? 160).

Definition is_space3 (a b c : Z) : bool :=
  ((a =? 225) && (b =? 154) && (c =? 128))
  || ((a =? 226) && (b =? 128)
      && (((128 <=? c) && (c <=? 138)) || (c =? 168) || (c =? 169)
          || (c =? 175)))
  || ((a =? 226) && (b =? 129) && (c =? 159))
  || ((a =? 227) && (b =? 128) && (c =? 128))
  || ((a =? 239) && (b =? 187) && (c =? 191)).

(** What is left of [s] behind one leading character to remove, if [s]
    begins with one. *)
Definition dropSpace (s : string) : option string :=
  match s with
  | String a r =>
      if is_space (byte a) then Some r
      else match r with
           | String b r' =>
               if is_space2 (byte a) (byte b) then Some r'
               else match r' with
                    | String c r'' =>
                        if is_space3 (byte a) (byte b) (byte c)
                        then Some r'' else None
                    | EmptyString => None
                    end
           | EmptyString => None
           end
  | EmptyString => None
  end.

(** The same on a reversed string, whose bytes come last first. *)
Definition dropSpaceRev (s : string) : option string :=
  match s with
  | String c r =>
      if is_space (byte c) then Some r
      else match r with
           | String b r' =>
               if is_space2 (byte b) (byte c) then Some r'
               else match r' with
                    | String a r'' =>
                        if is_space3 (byte a) (byte b) (byte c)
                        then Some r'' else None
                    | EmptyString => None
                    end
           | EmptyString => None
           end
  | EmptyString => None
  end.

Fixpoint dropWhile (drop : string -> option string) (fuel : nat)
    (s : string) : string :=
  match fuel with
  | O => s
  | S fuel' =>
      match drop s with
      | Some r => dropWhile drop fuel' r
      | None => s
      end
  end.

Definition trimStart (s : string) : string :=
  dropWhile dropSpace (String.length s) s.

Definition trimEnd (s : string) : string :=
  String.rev (dropWhile dropSpaceRev (String.length s) (String.rev s)).

Definition trim (s : string) : string := trimEnd (trimStart s).

(** [s || d] on strings: the empty string is falsy. *)
Definition str_or (s d : string) : string :=
  if bool_decide (s = "") then d else s.

(** [addItem(title, period)]; [newId] is the result of [makeId()] and [now]
    the date read by [periodKey(period)]. *)
Definition addItem (newId : string) (now : Date) (title : string)
    (period : Period) (st : Store) : Store :=
  let it :=
    {| Item.id := newId;
       Item.title := str_or (trim title) "Untitled";
       Item.period := period;
       Item.count := 0;
       Item.target := 1;
       Item.periodKey := periodKey period now;
       Item.streak := 0;
       Item.bestStreak := 0 |} in
  setItems (fun prev => it :: prev) st.

Definition removeItem (id : string) (st : Store) : Store :=
  setItems (List.filter (fun i => bool_decide (Item.id i <> id))) st.

Definition updateItem (id : string) (patch : Patch.t) (st : Store) : Store :=
  setItems (map (fun i => if bool_decide (Item.id i = id) then spread i patch else i)) st.

Definition countPatch (n : Z) : Patch.t :=
  {| Patch.id := None; Patch.title := None; Patch.period := None;
     Patch.count := Some n; Patch.target := None; Patch.periodKey := None;
     Patch.streak := None; Patch.bestStreak := None |}.

Definition increment (id : string) (st : Store) : Store :=
  match find (fun i => bool_decide (Item.id i = id)) (items st) with
  | None => st
  | Some it =>
      let next := Z.min (js_or (Item.count it) 0 + 1) (Z.max 1 (Item.target it)) in
      updateItem id (countPatch next) st
  end.

Definition decrement (id : string) (st : Store) : Store :=
  match find (fun i => bool_decide (Item.id i = id)) (items st) with
  | None => st
  | Some it =>
      let next := Z.max 0 (js_or (Item.count it) 0 - 1) in
      updateItem id (countPatch next) st
  end.

(** ** Item menu and modals (App.tsx, lines 561-597, 666-681, 757-771)

    A prompt answers [None] when cancelled; otherwise it answers the
    number read from the text, rounded down, or NaN ([Some None]). *)

Definition setCount (it : Item.t) (val : option (option Z)) (st : Store) : Store :=
  match val with
  | None => st
  | Some v =>
      let n := Z.max 0 (number_or v 0) in
      updateItem (Item.id it) (countPatch (Z.min n (Z.max 1 (Item.target it)))) st
  end.

Definition setTarget (it : Item.t) (val : option (option Z)) (st : Store) : Store :=
  match val with
  | None => st
  | Some v =>
      let t := Z.max 1 (number_or v 1) in
      let newCount := Z.min (Item.count it) t in
      updateItem (Item.id it)
        {| Patch.id := None; Patch.title := None; Patch.period := None;
           Patch.count := Some newCount; Patch.target := Some t;
           Patch.periodKey := None; Patch.streak := None;
           Patch.bestStreak := None |} st
  end.

(** Submitting the new-item form: [addItem], then the target is set on the
    item now at the head of the collection. *)
Definition createItem (newId : string) (now : Date) (title : string)
    (period : Period) (target : option Z) (st : Store) : Store :=
  let tgt := Z.max 1 (number_or target 1) in
  setItems (fun prev =>
    match prev with
    | [] => prev
    | first :: rest =>
        spread first
          {| Patch.id := None; Patch.title := None; Patch.period := None;
             Patch.count := Some (Z.min (Item.count first) tgt);
             Patch.target := Some tgt; Patch.periodKey := None;
             Patch.streak := None; Patch.bestStreak := None |} :: rest
    end)
    (addItem newId now (str_or title "Untitled") period st).

(** Saving the edit form for [editingItem]. *)
Definition saveEdit (editingItem : Item.t) (now : Date) (title : string)
    (period : Period) (target : option Z) (st : Store) : Store :=
  let tgt := Z.max 1 (js_or (number_or target 0) (js_or (Item.target editingItem) 1)) in
  let newCount := Z.min (Item.count editingItem) tgt in
  updateItem (Item.id editingItem)
    {| Patch.id := None;
       Patch.title := Some (str_or title "Untitled");
       Patch.period := Some period;
       Patch.count := Some newCount;
       Patch.target := Some tgt;
       Patch.periodKey :=
         Some (if bool_decide (period <> Item.period editingItem)
               then periodKey period now
               else Item.periodKey editingItem);
       Patch.streak := None; Patch.bestStreak := None |} st.

(** ** Live section headers (App.tsx, lines 864-900) *)

Definition hasPeriod (items : list Item.t) (p : Period) : bool :=
  existsb (fun i => bool_decide (Item.period i = p)) items.

Definition sectionDone (items : list Item.t) (p : Period) : bool :=
  hasPeriod items p
  && forallb reached (List.filter (fun i => bool_decide (Item.period i = p)) items).

(** The [streakDisplay] property handed to a section header. *)
Definition streakDisplay (st : Store) (p : Period) : Z :=
  current p (sectionStreaks st) + (if sectionDone (items st) p then 1 else 0).

(** The header of a section, [(streakDisplay, best)]; a section without
    items is not rendered. *)
Definition sectionHeader (st : Store) (p : Period) : option (Z * Z) :=
  if hasPeriod (items st) p
  then Some (streakDisplay st p, best p (sectionStreaks st))
  else None.

End App.

(** ** Saving (App.tsx, lines 100-104, 153-155, 183-185, 318-320)

    [JSON.stringify] writes every field of an item and of the section
    streaks, and parsing the text gives these fields back (an infinite
    number or NaN, which the model does not have, is written as null); [stored] tells
    whether [localStorage.setItem] took effect ([safeSet] does nothing when
    the storage is missing and swallows the exception of a failed write). *)

Definition rawOfItem (it : Item.t) : RawItem.t :=
  {| RawItem.id := Item.id it;
     RawItem.title := Item.title it;
     RawItem.period := Item.period it;
     RawItem.count := Some (Item.count it);
     RawItem.target := Some (Item.target it);
     RawItem.periodKey := Some (Item.periodKey it);
     RawItem.streak := Some (Item.streak it);
     RawItem.bestStreak := Some (Item.bestStreak it) |}.

Definition rawOfStreaks (ss : SectionStreaks) : RawStreaks.t :=
  {| RawStreaks.daily := Some (daily ss);
     RawStreaks.weekly := Some (weekly ss);
     RawStreaks.monthly := Some (monthly ss);
     RawStreaks.bestDaily := Some (bestDaily ss);
     RawStreaks.bestWeekly := Some (bestWeekly ss);
     RawStreaks.bestMonthly := Some (bestMonthly ss) |}.

Definition saveItems (stored : bool) (items : list Item.t)
    (ls : LocalStorage) : LocalStorage :=
  if stored then
    {| mhc_v3 := Parsed (map rawOfItem items);
       mhc_v2 := mhc_v2 ls;
       mhc_v1 := mhc_v1 ls;
       mhc_section_streaks_v1 := mhc_section_streaks_v1 ls |}
  else ls.

Definition saveSectionStreaks (stored : bool) (ss : SectionStreaks)
    (ls : LocalStorage) : LocalStorage :=
  if stored then
    {| mhc_v3 := mhc_v3 ls;
       mhc_v2 := mhc_v2 ls;
       mhc_v1 := mhc_v1 ls;
       mhc_section_streaks_v1 := Parsed (rawOfStreaks ss) |}
  else ls.

(** The two persisting effects of the component, run after a render. *)
Definition persist (st : Store) (ls : LocalStorage) : LocalStorage :=
  saveSectionStreaks true (sectionStreaks st) (saveItems true (items st) ls).

(** ** Derived lists (App.tsx, lines 393-398) *)

Module ByPeriod.
Record t := mk {
  daily : list Item.t;
  weekly : list Item.t;
  monthly : list Item.t
}.
End ByPeriod.

(** [map[it.period].push(it)] *)
Definition push (m : ByPeriod.t) (it : Item.t) : ByPeriod.t :=
  match Item.period it with
  | Daily =>
      ByPeriod.mk (ByPeriod.daily m ++ [it]) (ByPeriod.weekly m)
                  (ByPeriod.monthly m)
  | Weekly =>
      ByPeriod.mk (ByPeriod.daily m) (ByPeriod.weekly m ++ [it])
                  (ByPeriod.monthly m)
  | Monthly =>
      ByPeriod.mk (ByPeriod.daily m) (ByPeriod.weekly m)
                  (ByPeriod.monthly m ++ [it])
  end.

Definition byPeriod (items : list Item.t) : ByPeriod.t :=
  fold_left push items (ByPeriod.mk [] [] []).

(** [byPeriod[p]] *)
Definition cards (m : ByPeriod.t) (p : Period) : list Item.t :=
  match p with
  | Daily => ByPeriod.daily m
  | Weekly => ByPeriod.weekly m
  | Monthly => ByPeriod.monthly m
  end.

(** ** The program as a transition system

    A configuration is the state of the component with the storage.  The
    program starts by loading; then a rollover runs (with the items of
    whatever render its callback belongs to), a handler changes the items
    (every handler but the rollover goes through [setItems] and leaves the
    section streaks alone), an effect saves (each write may fail), or the
    program is started again. *)
Record Config := mkConfig { state : Store; storage : LocalStorage }.

Inductive step `{Host} : Config -> Config -> Prop :=
  | step_rollover (rendered : list Item.t) (now : Date) (c : Config) :
      step c (mkConfig (rollover rendered now (state c)) (storage c))
  | step_items (f : list Item.t -> list Item.t) (c : Config) :
      step c (mkConfig (setItems f (state c)) (storage c))
  | step_save (storedItems storedStreaks : bool) (c : Config) :
      step c (mkConfig (state c)
                (saveSectionStreaks storedStreaks (sectionStreaks (state c))
                   (saveItems storedItems (items (state c)) (storage c))))
  | step_restart (now : Date) (c : Config) :
      step c (mkConfig (initialStore now (storage c)) (storage c)).

(** The configurations the program reaches from a storage that holds no
    section streaks yet (or an unreadable text), whatever items it holds. *)
Inductive reachable `{Host} : Config -> Prop :=
  | reach_start (now : Date) (ls : LocalStorage) :
      mhc_section_streaks_v1 ls = Absent
      \/ mhc_section_streaks_v1 ls = Unparsable ->
      reachable (mkConfig (initialStore now ls) ls)
  | reach_step (c c' : Config) :
      reachable c -> step c c' -> reachable c'.

(** ** A press of a button

    A handler that changes the items makes the component render again;
    that re-creates [rollover] (its dependencies, line 371) and re-runs the
    effect of lines 375-380, which calls [check] at once, at the instant
    of that moment.  For an id the collection holds, a press is therefore
    the handler followed by a check. *)
Definition plusOne `{Host} (id : string) (now : Date) (st : Store) : Store :=
  check now (increment id st).

Definition minusOne `{Host} (id : string) (now : Date) (st : Store) : Store :=
  check now (decrement id st).

(** ** Example hosts, instants and states *)

(** A host without daylight saving time: UTC. *)
Definition utcHost : Host := {| LocalTZA := fun _ => 0 |}.

(** Eastern time of the United States during 2026: five hours behind UTC,
    four hours behind from 8 March, 03:00, to 1 November, 02:00 (local). *)
Definition newYork2026 : Host :=
  {| LocalTZA := fun tl =>
       if (MakeDay 2026 2 8 * msPerDay + 3 * 3600000 <=? tl)
          && (tl <? MakeDay 2026 10 1 * msPerDay + 2 * 3600000)
       then -4 * 3600000 else -5 * 3600000 |}.

(** Monday 6 and Thursday 9 October 2025; Thursday 5 and 12 March 2026. *)
Definition oct6 : Date := newDate 2025 9 6.
Definition oct9 : Date := newDate 2025 9 9.
Definition mar5 : Date := newDate 2026 2 5.
Definition mar12 : Date := newDate 2026 2 12.

Definition pushups : Item.t :=
  {| Item.id := "a"; Item.title := "Push-ups"; Item.period := Daily;
     Item.count := 3; Item.target := 3; Item.periodKey := "2025-10-06";
     Item.streak := 0; Item.bestStreak := 0 |}.

(** One complete daily counter last reset on 6 October; streak 2, best 4. *)
Definition exampleStore : Store :=
  {| items := [pushups]; sectionStreaks := mkSectionStreaks 2 0 0 4 0 0 |}.

(** A daily counter created on 6 October with target 3 and no progress. *)
Definition freshPushups : Item.t :=
  {| Item.id := "a"; Item.title := "Push-ups"; Item.period := Daily;
     Item.count := 0; Item.target := 3; Item.periodKey := "2025-10-06";
     Item.streak := 0; Item.bestStreak := 0 |}.

(** Tuesday 7 and Saturday 11 October 2025. *)
Definition oct7 : Date := newDate 2025 9 7.
Definition oct11 : Date := newDate 2025 9 11.

(** Storage written by version 2 of the application, which had no targets:
    one daily counter that was counted up to 3. *)
Definition storageV2 : LocalStorage :=
  {| mhc_v3 := Absent;
     mhc_v2 := Parsed [ {| RawItem.id := "a"; RawItem.title := "Push-ups";
                           RawItem.period := Daily; RawItem.count := Some 3;
                           RawItem.target := None;
                           RawItem.periodKey := Some "2025-10-06";
                           RawItem.streak := Some 0;
                           RawItem.bestStreak := Some 0 |} ];
     mhc_v1 := Absent;
     mhc_section_streaks_v1 := Absent |}.

(** Storage of the current version holding progress 5 under target 3. *)
Definition storageV3 : LocalStorage :=
  {| mhc_v3 := Parsed [ {| RawItem.id := "a"; RawItem.title := "Push-ups";
                           RawItem.period := Daily; RawItem.count := Some 5;
                           RawItem.target := Some 3;
                           RawItem.periodKey := Some "2025-10-06";
                           RawItem.streak := Some 0;
                           RawItem.bestStreak := Some 0 |} ];
     mhc_v2 := Absent;
     mhc_v1 := Absent;
     mhc_section_streaks_v1 := Absent |}.

(** Stored section streaks with a daily streak of 1 and no best streak. *)
Definition storageStreakOnly : LocalStorage :=
  {| mhc_v3 := Absent; mhc_v2 := Absent; mhc_v1 := Absent;
     mhc_section_streaks_v1 :=
       Parsed {| RawStreaks.daily := Some 1; RawStreaks.weekly := None;
                 RawStreaks.monthly := None; RawStreaks.bestDaily := None;
                 RawStreaks.bestWeekly := None;
                 RawStreaks.bestMonthly := None |} |}.

(** Nothing stored. *)
Definition emptyStorage : LocalStorage :=
  {| mhc_v3 := Absent; mhc_v2 := Absent; mhc_v1 := Absent;
     mhc_section_streaks_v1 := Absent |}.

(** A weekly counter of the week of 6 October, two of five done. *)
Definition reading : Item.t :=
  {| Item.id := "b"; Item.title := "Reading"; Item.period := Weekly;
     Item.count := 2; Item.target := 5; Item.periodKey := "2025-W41";
     Item.streak := 0; Item.bestStreak := 0 |}.

(** The example state with the weekly counter in front. *)
Definition twoCounters : Store :=
  {| items := [reading; pushups];
     sectionStreaks := mkSectionStreaks 2 1 0 4 3 0 |}.

(** The daily counter of the example once incomplete. *)
Definition brokenStore : Store :=
  {| items := [spread pushups (countPatch 1)];
     sectionStreaks := mkSectionStreaks 2 0 0 4 0 0 |}.

(** The daily counter before any progress. *)
Definition freshStore : Store :=
  {| items := [freshPushups]; sectionStreaks := mkSectionStreaks 2 0 0 4 0 0 |}.

(** Noon of 6 October 2025. *)
Definition oct6noon : Date := mkDate (localDay oct6) 43200000.

(** The configuration after the first check of a fresh installation. *)
Definition afterFirstCheck : Config :=
  mkConfig (check (H:=utcHost) oct9 (initialStore (H:=utcHost) oct6 storageV2))
           storageV2.

(** A daily counter created on 9 October, and four presses that day. *)
Definition todayPushups : Item.t :=
  {| Item.id := "a"; Item.title := "Push-ups"; Item.period := Daily;
     Item.count := 0; Item.target := 3; Item.periodKey := "2025-10-09";
     Item.streak := 0; Item.bestStreak := 0 |}.
Definition freshToday : Store :=
  {| items := [todayPushups]; sectionStreaks := mkSectionStreaks 2 0 0 4 0 0 |}.
Definition oct9noon : Date := mkDate (localDay oct9) 43200000.
Definition fourPresses : list Date := [oct9; oct9noon; oct9noon; oct9noon].

(** ** Notions used in the statements *)

#[global] Instance Item_eq_dec : EqDecision Item.t.
Proof. solve_decision. Defined.

(** What the frame of a counter is: all it has but progress and key. *)
Definition frame (i : Item.t) : string * string * Period * Z * Z * Z :=
  (Item.id i, Item.title i, Item.period i, Item.target i,
   Item.streak i, Item.bestStreak i).

(** Every key of the collection is the current key at an instant: a check
    at that instant finds no boundary. *)
Definition keysCurrent `{Host} (now : Date) (l : list Item.t) : Prop :=
  Forall (fun i => Item.periodKey i = periodKey (Item.period i) now) l.

(** A number a double holds exactly and JSON writes back as it is. *)
Definition finite (z : Z) : Prop := -(2 ^ 53) <= z <= 2 ^ 53.

Definition finiteItem (i : Item.t) : Prop :=
  finite (Item.count i) /\ finite (Item.target i)
  /\ finite (Item.streak i) /\ finite (Item.bestStreak i).

Definition finiteStreaks (s : SectionStreaks) : Prop :=
  finite (daily s) /\ finite (weekly s) /\ finite (monthly s)
  /\ finite (bestDaily s) /\ finite (bestWeekly s) /\ finite (bestMonthly s).

(** The bounds the loader establishes. *)
Definition loadable (i : Item.t) : Prop :=
  1 <= Item.target i /\ 0 <= Item.count i.

(** The invariant of the data model on one counter. *)
Definition itemOk (i : Item.t) : Prop :=
  1 <= Item.target i /\ 0 <= Item.count i /\ Item.count i <= Item.target i.

(** Two dates lie in the same ISO week when their weeks start on the same
    Monday; day 0 (1 January 1970) is a Thursday. *)
Definition isoWeekIndex (d : Date) : Z := (localDay d + 3) / 7.

Definition sameISOWeek (d1 d2 : Date) : Prop :=
  isoWeekIndex d1 = isoWeekIndex d2.

(** ** The specification's streak store

    [recordBoundary] follows the words of the specification (section 4.3):
    one recording of a boundary on the record [(current, best)] of a
    period kind.  The program has no such function; the theorems compare
    its streak updater with one application of this one. *)
Definition recordBoundary (groupWasComplete : bool) (r : Z * Z) : Z * Z :=
  let current := if groupWasComplete then r.1 + 1 else 0 in
  (current, Z.max r.2 current).

(** The record [(current, best)] a state stores for a period kind. *)
Definition streakRecord (p : Period) (st : Store) : Z * Z :=
  (current p (sectionStreaks st), best p (sectionStreaks st)).

(** A group is complete, in the specification's words (section 3), when
    it is non-empty and every member has progress at least its target. *)
Definition groupComplete (items : list Item.t) (p : Period) : Prop :=
  Exists (fun i => Item.period i = p) items
  /\ Forall (fun i => Item.period i = p -> Item.target i <= Item.count i) items.

#[global] Instance groupComplete_dec items p : Decision (groupComplete items p).
Proof. unfold groupComplete. apply _. Defined.

(** The stored streak fields of one period kind. *)
Definition rawCurrent (p : Period) (s : RawStreaks.t) : option Z :=
  match p with
  | Daily => RawStreaks.daily s
  | Weekly => RawStreaks.weekly s
  | Monthly => RawStreaks.monthly s
  end.

Definition rawBest (p : Period) (s : RawStreaks.t) : option Z :=
  match p with
  | Daily => RawStreaks.bestDaily s
  | Weekly => RawStreaks.bestWeekly s
  | Monthly => RawStreaks.bestMonthly s
  end.

(** The stored record of kind [p] is absent, unreadable, or has its best
    streak at least its current streak (a missing field counting as 0). *)
Definition storedStreakOk (p : Period) (ls : LocalStorage) : Prop :=
  match mhc_section_streaks_v1 ls with
  | Parsed raw => default 0 (rawCurrent p raw) <= default 0 (rawBest p raw)
  | Absent | Unparsable => True
  end.

(** Decimal digits, the characters of a printed natural number. *)
Definition isDigit (c : Ascii.ascii) : bool :=
  let n := Ascii.nat_of_ascii c in
  bool_decide (48 <= n)%nat && bool_decide (n <= 57)%nat.

Fixpoint allDigits (s : string) : bool :=
  match s with
  | EmptyString => true
  | String c s' => isDigit c && allDigits s'
  end.

(** * Properties *)

Section Rollover.

Context `{Host}.

Lemma resetItem_period now it :
  Item.period (resetItem now it) = Item.period it.
Proof. unfold resetItem. by case_bool_decide. Qed.

Lemma resetItem_key now it :
  Item.periodKey (resetItem now it) = periodKey (Item.period it) now.
Proof.
  unfold resetItem. case_bool_decide as Hk; simpl; [done|].
  by destruct (decide (periodKey (Item.period it) now = Item.periodKey it)).
Qed.

Lemma boundary_false items p now :
  boundary items p now = false <->
  Forall (fun i => Item.period i = p -> Item.periodKey i = periodKey p now) items.
Proof.
  unfold boundary. induction items as [|i l IH]; simpl.
  - split; [constructor | done].
  - rewrite orb_false_iff, IH, Forall_cons. 
    rewrite andb_false_iff, !bool_decide_eq_false.
    split; intros [Hi Hl]; split; try done.
    + intros Hp. destruct Hi as [Hi|Hi]; [done|].
      destruct (decide (Item.periodKey i = periodKey p now)) as [|Hne]; [done|].
      exfalso. apply Hi. congruence.
    + destruct (decide (Item.period i = p)) as [Hp|Hp]; [|by left].
      right. intros Hne. apply Hne. symmetry. auto.
Qed.

Lemma boundary_true items p now :
  boundary items p now = true <->
  Exists (fun i => Item.period i = p /\ Item.periodKey i <> periodKey p now) items.
Proof.
  unfold boundary. rewrite existsb_exists, Exists_exists.
  split; intros (i & Hin & Hi); exists i.
  - apply andb_true_iff in Hi as [Hp Hk].
    apply bool_decide_eq_true in Hp, Hk. 
    split; [by apply list_elem_of_In|]. split; [done|congruence].
  - destruct Hi as [Hp Hk]. split; [by apply list_elem_of_In|].
    apply andb_true_iff. rewrite !bool_decide_eq_true. split; [done|congruence].
Qed.

Lemma boundary_after_reset items p now :
  boundary (map (resetItem now) items) p now = false.
Proof.
  apply boundary_false, Forall_forall. intros i Hi Hp.
  apply list_elem_of_fmap in Hi as (j & -> & _).
  rewrite resetItem_key. rewrite resetItem_period in Hp. by rewrite Hp.
Qed.

Lemma reached_le i :
  reached i = true <-> Z.max 1 (Item.target i) <= Item.count i.
Proof. unfold reached. rewrite Z.geb_le. done. Qed.

Lemma allDone_true items p :
  allDone items p = true <->
  Exists (fun i => Item.period i = p) items
  /\ Forall (fun i => Item.period i = p -> Z.max 1 (Item.target i) <= Item.count i)
       items.
Proof.
  unfold allDone.
  set (grp := List.filter (fun i => bool_decide (Item.period i = p)) items).
  assert (Hgrp : forall i, i ∈ grp <-> i ∈ items /\ Item.period i = p).
  { intros i. unfold grp. rewrite !list_elem_of_In, filter_In.
    by rewrite bool_decide_eq_true. }
  clearbody grp.
  rewrite Exists_exists, Forall_forall.
  case_bool_decide as Hlen.
  - split; [done|]. intros [(i & Hi & Hp) _]. exfalso.
    apply length_zero_iff_nil in Hlen.
    assert (i ∈ grp) as Hin by (apply Hgrp; done).
    rewrite Hlen in Hin. by apply elem_of_nil in Hin.
  - rewrite forallb_forall. split.
    + intros Hall. split.
      * destruct grp as [|i l]; [done|].
        exists i. apply Hgrp. left.
      * intros i Hi Hp. apply reached_le, Hall, list_elem_of_In, Hgrp. done.
    + intros [_ Hall] i Hi. apply list_elem_of_In, Hgrp in Hi as [Hi Hp].
      apply reached_le. auto.
Qed.

(** The streak updater acts on each period kind by itself: a kind with a
    boundary gets one [recordBoundary], a kind without keeps its record. *)
Lemma streaksUpdater_kind bD bW bM eD eW eM s p :
  let b := match p with Daily => bD | Weekly => bW | Monthly => bM end in
  let e := match p with Daily => eD | Weekly => eW | Monthly => eM end in
  (current p (streaksUpdater bD bW bM eD eW eM s),
   best p (streaksUpdater bD bW bM eD eW eM s))
  = if b then recordBoundary e (current p s, best p s)
    else (current p s, best p s).
Proof.
  unfold streaksUpdater, recordBoundary.
  destruct p, bD, bW, bM; reflexivity.
Qed.

(** What one settled check does to the streak record of a kind. *)
Lemma check_streakRecord now st p :
  streakRecord p (check now st)
  = if boundary (items st) p now
    then recordBoundary (allDone (items st) p) (streakRecord p st)
    else streakRecord p st.
Proof.
  unfold check, rollover, streakRecord.
  destruct (boundary (items st) Daily now) eqn:HD,
           (boundary (items st) Weekly now) eqn:HW,
           (boundary (items st) Monthly now) eqn:HM;
    cbn [negb andb sectionStreaks];
    try rewrite streaksUpdater_kind;
    destruct p; rewrite ?HD, ?HW, ?HM; reflexivity.
Qed.

(** What one settled check does to the items. *)
Lemma check_items now st :
  items (check now st) = map (resetItem now) (items st).
Proof.
  unfold check, rollover.
  destruct (boundary (items st) Daily now) eqn:HD,
           (boundary (items st) Weekly now) eqn:HW,
           (boundary (items st) Monthly now) eqn:HM;
    cbn [negb andb items]; try reflexivity.
  (* no boundary at all: no item has a stale key *)
  apply boundary_false in HD, HW, HM.
  rewrite Forall_forall in HD, HW, HM.
  symmetry. transitivity (map id (items st)); [|by rewrite map_id].
  apply map_ext_in. intros i Hi%list_elem_of_In.
  unfold resetItem. case_bool_decide as Hk; [|done].
  exfalso. apply Hk. symmetry.
  destruct (Item.period i) eqn:Hp; auto.
Qed.

(** A check that sees the settled state is idempotent: run again at the
    same instant by the callback of the render that shows the state the
    first check left, it leaves exactly that state. *)
Lemma rollover_idempotent now st :
  check now (check now st) = check now st.
Proof.
  generalize (check_items now st). intros Hit.
  unfold check at 1. unfold rollover.
  rewrite Hit, !boundary_after_reset. reflexivity.
Qed.

(** C2 (single-increment law).  When a boundary is detected for a period
    kind and every counter of that kind has reached its target, one check
    adds exactly 1 to the kind's current streak, whatever the stale keys
    are (however many periods have passed), and the kind's record is the
    result of recording the boundary once. *)
Theorem single_increment now st p :
  boundary (items st) p now = true ->
  Forall (fun i => Item.period i = p ->
                   1 <= Item.target i /\ Item.target i <= Item.count i)
         (items st) ->
  current p (sectionStreaks (check now st)) = current p (sectionStreaks st) + 1
  /\ streakRecord p (check now st) = recordBoundary true (streakRecord p st).
Proof.
  intros Hb Hall.
  assert (Hdone : allDone (items st) p = true).
  { apply allDone_true. split.
    - apply boundary_true in Hb. eapply Exists_impl; [exact Hb|]. by intros i [??].
    - eapply Forall_impl; [exact Hall|]. intros i Hi Hp. specialize (Hi Hp). lia. }
  pose proof (check_streakRecord now st p) as Hrec.
  rewrite Hb, Hdone in Hrec. split; [|exact Hrec].
  unfold streakRecord, recordBoundary in Hrec. simpl in Hrec. congruence.
Qed.

(** C3 (pre-reset evaluation and reset step).  When a boundary is detected
    for a period kind, the kind's record is updated with the completeness
    of the group as it stands before the reset (non-empty and every member
    at its target); then every counter of the kind with a stale key gets
    progress 0 and the current key, its other fields and its position
    kept, while a counter whose key is current is left as it is. *)
Theorem boundary_evaluates_then_resets now st p :
  boundary (items st) p now = true ->
  streakRecord p (check now st)
    = recordBoundary (allDone (items st) p) (streakRecord p st)
  /\ (allDone (items st) p = true <->
      Exists (fun i => Item.period i = p) (items st)
      /\ Forall (fun i => Item.period i = p ->
                          Z.max 1 (Item.target i) <= Item.count i) (items st))
  /\ length (items (check now st)) = length (items st)
  /\ forall (k : nat) (it : Item.t),
       items st !! k = Some it -> Item.period it = p ->
       (Item.periodKey it <> periodKey p now ->
          items (check now st) !! k
          = Some {| Item.id := Item.id it; Item.title := Item.title it;
                    Item.period := Item.period it; Item.count := 0;
                    Item.target := Item.target it;
                    Item.periodKey := periodKey p now;
                    Item.streak := Item.streak it;
                    Item.bestStreak := Item.bestStreak it |})
       /\ (Item.periodKey it = periodKey p now ->
          items (check now st) !! k = Some it).
Proof.
  intros Hb. split; [|split; [|split]].
  - rewrite check_streakRecord, Hb. reflexivity.
  - apply allDone_true.
  - rewrite check_items. apply length_map.
  - intros k it Hk Hp. rewrite check_items.
    change (map (resetItem now) (items st)) with (resetItem now <$> items st).
    rewrite list_lookup_fmap, Hk. simpl. unfold resetItem. subst p.
    split; intros Hkey.
    + rewrite bool_decide_eq_true_2 by congruence. reflexivity.
    + rewrite bool_decide_eq_false_2; [done|]. intros Hne. by apply Hne.
Qed.

(** C4 (empty-group law).  For a period kind without counters, no instant
    makes a check detect a boundary, and a check changes neither the
    current nor the best streak of that kind. *)
Theorem empty_group_untouched now st p :
  Forall (fun i => Item.period i <> p) (items st) ->
  boundary (items st) p now = false
  /\ current p (sectionStreaks (check now st)) = current p (sectionStreaks st)
  /\ best p (sectionStreaks (check now st)) = best p (sectionStreaks st).
Proof.
  intros Hempty.
  assert (Hb : boundary (items st) p now = false).
  { apply boundary_false. eapply Forall_impl; [exact Hempty|]. by intros i ??. }
  pose proof (check_streakRecord now st p) as Hrec. rewrite Hb in Hrec.
  unfold streakRecord in Hrec. split; [done|]. split; congruence.
Qed.

End Rollover.

(** ** The streak records of the configurations the program reaches *)

Section Reachable.

Context `{Host}.

(** What one call of [rollover] does to the streak record of a kind,
    whatever render the callback belongs to. *)
Lemma rollover_streakRecord rendered now st p :
  streakRecord p (rollover rendered now st)
  = if boundary rendered p now
    then recordBoundary (allDone rendered p) (streakRecord p st)
    else streakRecord p st.
Proof.
  unfold rollover, streakRecord.
  destruct (boundary rendered Daily now) eqn:HD,
           (boundary rendered Weekly now) eqn:HW,
           (boundary rendered Monthly now) eqn:HM;
    cbn [negb andb sectionStreaks];
    try rewrite streaksUpdater_kind;
    destruct p; rewrite ?HD, ?HW, ?HM; reflexivity.
Qed.

Lemma rollover_keeps_order rendered now st p :
  current p (sectionStreaks st) <= best p (sectionStreaks st) ->
  current p (sectionStreaks (rollover rendered now st))
  <= best p (sectionStreaks (rollover rendered now st)).
Proof.
  intros Hst. pose proof (rollover_streakRecord rendered now st p) as Hrec.
  unfold streakRecord, recordBoundary in Hrec. cbn [fst snd] in Hrec.
  destruct (boundary rendered p now); injection Hrec as -> ->; lia.
Qed.

Lemma load_keeps_order ls p :
  storedStreakOk p ls ->
  current p (loadSectionStreaks ls) <= best p (loadSectionStreaks ls).
Proof.
  unfold storedStreakOk, loadSectionStreaks.
  destruct (mhc_section_streaks_v1 ls) as [| |raw]; destruct p; simpl; lia.
Qed.

Lemma save_keeps_order storedItems storedStreaks st ls p :
  current p (sectionStreaks st) <= best p (sectionStreaks st) ->
  storedStreakOk p ls ->
  storedStreakOk p
    (saveSectionStreaks storedStreaks (sectionStreaks st)
       (saveItems storedItems (items st) ls)).
Proof.
  intros Hst Hls. unfold storedStreakOk, saveSectionStreaks, saveItems in *.
  destruct storedStreaks, storedItems; cbn [mhc_section_streaks_v1];
    try done; by destruct p.
Qed.

(** In every reachable configuration the state and the storage both have
    best >= current, for every kind. *)
Lemma reachable_order c :
  reachable c ->
  forall p, current p (sectionStreaks (state c)) <= best p (sectionStreaks (state c))
            /\ storedStreakOk p (storage c).
Proof.
  induction 1 as [now ls Hls|c c' _ IH Hstep]; intros p.
  - assert (Hok : storedStreakOk p ls).
    { unfold storedStreakOk. by destruct Hls as [-> | ->]. }
    split; [|done]. cbn [state initialStore sectionStreaks].
    by apply load_keeps_order.
  - destruct (IH p) as [Hst Hls].
    destruct Hstep as [rendered now c|f c|sI sS c|now c]; cbn [state storage].
    + split; [by apply rollover_keeps_order|done].
    + done.
    + split; [done|by apply save_keeps_order].
    + split; [|done]. cbn [initialStore sectionStreaks].
      by apply load_keeps_order.
Qed.

(** C7 (streak record invariant).  In every configuration the program
    reaches, for every period kind, best >= current holds in the state,
    holds for what a load of the storage returns, and holds after any
    rollover, whichever render its callback belongs to; and whenever a
    rollover changes the current streak, by incrementing it or by
    resetting it to 0, the best streak becomes the maximum of the old best
    and the new current streak. *)
Theorem streak_invariant_reachable c p :
  reachable c ->
  current p (sectionStreaks (state c)) <= best p (sectionStreaks (state c))
  /\ current p (loadSectionStreaks (storage c))
     <= best p (loadSectionStreaks (storage c))
  /\ forall rendered now,
       let before := sectionStreaks (state c) in
       let after := sectionStreaks (rollover rendered now (state c)) in
       current p after <= best p after
       /\ (current p after <> current p before ->
           best p after = Z.max (best p before) (current p after)).
Proof.
  intros Hreach. destruct (reachable_order c Hreach p) as [Hst Hls].
  split; [done|]. split; [by apply load_keeps_order|].
  intros rendered now. cbv zeta. split; [by apply rollover_keeps_order|].
  pose proof (rollover_streakRecord rendered now (state c) p) as Hrec.
  unfold streakRecord, recordBoundary in Hrec. cbn [fst snd] in Hrec.
  destruct (boundary rendered p now); injection Hrec as Hc Hb.
  - intros _. by rewrite Hb, Hc.
  - intros Hne. by rewrite Hc in Hne.
Qed.

End Reachable.

Section Operations.

Context `{Host}.

Lemma find_none_id (id : string) (l : list Item.t) :
  Forall (fun i => Item.id i <> id) l ->
  find (fun i => bool_decide (Item.id i = id)) l = None.
Proof.
  induction 1 as [|i l Hi _ IH]; simpl; [done|].
  by rewrite bool_decide_eq_false_2.
Qed.

(** C5 (preview streak).  With targets of at least 1, the streak shown in
    the header of a period kind is the stored current streak plus 1 when
    the group is complete (non-empty, every member at its target) and the
    stored current streak otherwise; a section with items shows this value
    next to the stored best streak.  The header is a function of the state
    and returns no state: nothing is stored by computing it. *)
Theorem preview_streak st p :
  Forall (fun i => 1 <= Item.target i) (items st) ->
  streakDisplay st p
  = current p (sectionStreaks st)
    + (if bool_decide (groupComplete (items st) p) then 1 else 0)
  /\ (Exists (fun i => Item.period i = p) (items st) ->
      sectionHeader st p = Some (streakDisplay st p, best p (sectionStreaks st))).
Proof.
  intros Hwf.
  assert (Hhas : hasPeriod (items st) p = true <->
                 Exists (fun i => Item.period i = p) (items st)).
  { unfold hasPeriod. rewrite existsb_exists, Exists_exists.
    split; intros (i & Hi & Hp); exists i.
    - apply bool_decide_eq_true in Hp. by rewrite list_elem_of_In.
    - rewrite bool_decide_eq_true. by rewrite <- list_elem_of_In. }
  split.
  - unfold streakDisplay. f_equal.
    assert (Hiff : sectionDone (items st) p = true <-> groupComplete (items st) p).
    { unfold sectionDone, groupComplete.
      rewrite andb_true_iff, Hhas, forallb_forall, !Forall_forall.
      rewrite Forall_forall in Hwf.
      split; intros [Hex Hall]; (split; [done|]).
      - intros i Hi Hp.
        assert (reached i = true) as Hr.
        { apply Hall, filter_In. rewrite bool_decide_eq_true.
          by rewrite <- list_elem_of_In. }
        apply reached_le in Hr. lia.
      - intros i [Hi Hp]%filter_In. apply bool_decide_eq_true in Hp.
        apply list_elem_of_In in Hi. apply reached_le.
        specialize (Hwf i Hi). specialize (Hall i Hi Hp). lia. }
    destruct (sectionDone (items st) p) eqn:Hd.
    + rewrite bool_decide_eq_true_2; [done|]. by apply Hiff.
    + rewrite bool_decide_eq_false_2; [done|].
      intros Hc. apply Hiff in Hc. congruence.
  - intros Hex. unfold sectionHeader. apply Hhas in Hex. by rewrite Hex.
Qed.

(** C9 (unknown id).  When no counter carries the id, [increment] and
    [decrement] return the state they were given, items and section
    streaks alike; both are total functions, there is no error result. *)
Theorem unknown_id_noop (id : string) st :
  Forall (fun i => Item.id i <> id) (items st) ->
  increment id st = st /\ decrement id st = st.
Proof.
  intros Hid. unfold increment, decrement.
  by rewrite (find_none_id id (items st) Hid).
Qed.

(** C10 (increment frame).  [increment id] keeps the section streaks, the
    number of counters and their order; at every position the counter
    keeps its id, title, period, target, period key, streak and best
    streak, and a counter with another id is not changed at all. *)
Theorem increment_frame (id : string) st :
  sectionStreaks (increment id st) = sectionStreaks st
  /\ length (items (increment id st)) = length (items st)
  /\ forall (k : nat) (it : Item.t),
       items st !! k = Some it ->
       exists it',
         items (increment id st) !! k = Some it'
         /\ Item.id it' = Item.id it
         /\ Item.title it' = Item.title it
         /\ Item.period it' = Item.period it
         /\ Item.target it' = Item.target it
         /\ Item.periodKey it' = Item.periodKey it
         /\ Item.streak it' = Item.streak it
         /\ Item.bestStreak it' = Item.bestStreak it
         /\ (Item.id it <> id -> it' = it).
Proof.
  unfold increment.
  destruct (find _ (items st)) as [found|].
  - unfold updateItem, setItems. cbn [items sectionStreaks].
    split; [done|]. split; [apply length_map|].
    intros k it Hk.
    set (f := fun i : Item.t => if bool_decide (Item.id i = id) then _ else i).
    exists (f it). split.
    { change (map f (items st)) with (f <$> items st).
      by rewrite list_lookup_fmap, Hk. }
    unfold f. case_bool_decide as Hid; simpl; [|done].
    repeat split; try done.
  - split; [done|]. split; [done|]. intros k it Hk. exists it.
    repeat split; done.
Qed.

End Operations.

(** ** The clamping invariant, operation by operation *)

Section Clamping.

Context `{Host}.

Lemma find_unique (id : string) (l : list Item.t) (it : Item.t) :
  NoDup (map Item.id l) ->
  find (fun i => bool_decide (Item.id i = id)) l = Some it ->
  it ∈ l /\ Item.id it = id /\ forall i, i ∈ l -> Item.id i = id -> i = it.
Proof.
  induction l as [|j l IH]; simpl; [done|].
  intros Hnd Hfind. apply NoDup_cons in Hnd as [Hj Hnd].
  case_bool_decide as Hid.
  - injection Hfind as ->. split; [left|]. split; [done|].
    intros i Hi Hi'. apply elem_of_cons in Hi as [->|Hi]; [done|].
    exfalso. apply Hj. rewrite Hid, <- Hi'.
    apply list_elem_of_fmap. by exists i.
  - destruct (IH Hnd Hfind) as (Hin & Hit & Huniq).
    split; [by right|]. split; [done|].
    intros i Hi Hi'. apply elem_of_cons in Hi as [->|Hi]; [done|]. auto.
Qed.

Lemma updateItem_ok (id : string) patch st :
  Forall itemOk (items st) ->
  (forall i, i ∈ items st -> Item.id i = id -> itemOk (spread i patch)) ->
  Forall itemOk (items (updateItem id patch st)).
Proof.
  intros Hok Hpatch. unfold updateItem, setItems. cbn [items].
  apply Forall_forall. intros i' Hi'.
  apply list_elem_of_fmap in Hi' as (i & -> & Hi).
  case_bool_decide; [by apply Hpatch|].
  by apply (proj1 (Forall_forall _ _) Hok).
Qed.

(** X13 (increment keeps the bounds).  With unique ids, [+1] keeps every
    counter within 0 <= progress <= target, target >= 1: it stops at the
    target. *)
Lemma increment_ok (id : string) st :
  NoDup (map Item.id (items st)) ->
  Forall itemOk (items st) -> Forall itemOk (items (increment id st)).
Proof.
  intros Hnd Hok. unfold increment.
  destruct (find _ (items st)) as [it|] eqn:Hfind; [|done].
  destruct (find_unique id _ it Hnd Hfind) as (Hin & _ & Huniq).
  apply updateItem_ok; [done|]. intros i Hi Hid.
  rewrite (Huniq i Hi Hid).
  apply (proj1 (Forall_forall _ _) Hok) in Hin.
  unfold itemOk, js_or in *. simpl. destruct (Item.count it =? 0); lia.
Qed.

(** X14 (decrement keeps the bounds).  With unique ids, [-1] keeps every
    counter within 0 <= progress <= target, target >= 1: it stops at 0. *)
Lemma decrement_ok (id : string) st :
  NoDup (map Item.id (items st)) ->
  Forall itemOk (items st) -> Forall itemOk (items (decrement id st)).
Proof.
  intros Hnd Hok. unfold decrement.
  destruct (find _ (items st)) as [it|] eqn:Hfind; [|done].
  destruct (find_unique id _ it Hnd Hfind) as (Hin & _ & Huniq).
  apply updateItem_ok; [done|]. intros i Hi Hid.
  rewrite (Huniq i Hi Hid).
  apply (proj1 (Forall_forall _ _) Hok) in Hin.
  unfold itemOk, js_or in *. simpl. destruct (Item.count it =? 0); lia.
Qed.

Lemma unique_by_id (l : list Item.t) (it i : Item.t) :
  NoDup (map Item.id l) -> it ∈ l -> i ∈ l -> Item.id i = Item.id it -> i = it.
Proof.
  induction l as [|j l IH]; simpl; intros Hnd Hit Hi Hid.
  - by apply elem_of_nil in Hit.
  - apply NoDup_cons in Hnd as [Hj Hnd].
    apply elem_of_cons in Hit as [->|Hit], Hi as [->|Hi]; auto.
    + exfalso. apply Hj. rewrite <- Hid. apply list_elem_of_fmap. by exists i.
    + exfalso. apply Hj. rewrite Hid. apply list_elem_of_fmap. by exists it.
Qed.

(** X15 (set count keeps the bounds).  With unique ids, whatever is typed
    into the prompt (a number, text that is no number, or nothing), the
    counters stay within 0 <= progress <= target, target >= 1. *)
Lemma setCount_ok it val st :
  NoDup (map Item.id (items st)) -> it ∈ items st ->
  Forall itemOk (items st) -> Forall itemOk (items (setCount it val st)).
Proof.
  intros Hnd Hin Hok. unfold setCount. destruct val as [v|]; [|done].
  apply updateItem_ok; [done|]. intros i Hi Hid.
  rewrite (unique_by_id _ it i Hnd Hin Hi Hid).
  apply (proj1 (Forall_forall _ _) Hok) in Hin.
  unfold itemOk in *. simpl. lia.
Qed.

(** X16 (set target keeps the bounds).  With unique ids, whatever is typed
    into the prompt, the counters stay within 0 <= progress <= target,
    target >= 1: the new target is at least 1 and the progress is cut down
    to it. *)
Lemma setTarget_ok it val st :
  NoDup (map Item.id (items st)) -> it ∈ items st ->
  Forall itemOk (items st) -> Forall itemOk (items (setTarget it val st)).
Proof.
  intros Hnd Hin Hok. unfold setTarget. destruct val as [v|]; [|done].
  apply updateItem_ok; [done|]. intros i Hi Hid.
  rewrite (unique_by_id _ it i Hnd Hin Hi Hid).
  apply (proj1 (Forall_forall _ _) Hok) in Hin.
  unfold itemOk in *. simpl. lia.
Qed.

(** X17 (the edit form keeps the bounds).  With unique ids, saving the
    edit form with any title, period and target keeps the counters within
    0 <= progress <= target, target >= 1. *)
Lemma saveEdit_ok it now title period target st :
  NoDup (map Item.id (items st)) -> it ∈ items st ->
  Forall itemOk (items st) ->
  Forall itemOk (items (saveEdit it now title period target st)).
Proof.
  intros Hnd Hin Hok. unfold saveEdit.
  apply updateItem_ok; [done|]. intros i Hi Hid.
  rewrite (unique_by_id _ it i Hnd Hin Hi Hid).
  apply (proj1 (Forall_forall _ _) Hok) in Hin.
  unfold itemOk in *. simpl. lia.
Qed.

(** A created counter starts at progress 0 with a target of at least 1. *)
Lemma createItem_ok newId now title period target st :
  Forall itemOk (items st) ->
  Forall itemOk (items (createItem newId now title period target st)).
Proof.
  intros Hok. unfold createItem, addItem, setItems. cbn [items].
  apply Forall_cons. split; [|done]. unfold itemOk. simpl. lia.
Qed.

Lemma removeItem_ok (id : string) st :
  Forall itemOk (items st) -> Forall itemOk (items (removeItem id st)).
Proof.
  intros Hok. unfold removeItem, setItems. cbn [items].
  apply Forall_forall. intros i [Hi _]%list_elem_of_In%filter_In.
  by apply (proj1 (Forall_forall _ _) Hok), list_elem_of_In.
Qed.

(** X12 (a check keeps the bounds).  A rollover check keeps every counter
    within 0 <= progress <= target, target >= 1. *)
Lemma check_ok now st :
  Forall itemOk (items st) -> Forall itemOk (items (check now st)).
Proof.
  intros Hok. rewrite check_items. apply Forall_forall. intros i' Hi'.
  apply list_elem_of_fmap in Hi' as (i & -> & Hi).
  apply (proj1 (Forall_forall _ _) Hok) in Hi.
  unfold resetItem. case_bool_decide; [|done].
  unfold itemOk in *. simpl. lia.
Qed.

(** X25 (bounds after loading).  Whatever the storage holds, every loaded
    counter has a target of at least 1 and progress of at least 0. *)
Lemma loadItems_lower_bounds now ls :
  Forall (fun i => 1 <= Item.target i /\ 0 <= Item.count i) (loadItems now ls).
Proof.
  unfold loadItems.
  destruct (mhc_v3 ls) as [| |arr3]; [|constructor|].
  - destruct (mhc_v2 ls) as [| |arr2]; [|constructor|].
    + destruct (mhc_v1 ls) as [| |arr1]; [constructor|constructor|].
      apply Forall_forall. intros i (r & -> & _)%list_elem_of_fmap. simpl. lia.
    + apply Forall_forall. intros i (r & -> & _)%list_elem_of_fmap. simpl. lia.
  - apply Forall_forall. intros i (r & -> & _)%list_elem_of_fmap. simpl. lia.
Qed.

(** C6 (clamping invariant): the loader breaks it.  Migrating the stored
    collection of version 2 gives every counter target 1 and keeps its
    stored progress, here 3; the loader of the current version likewise
    keeps a stored progress of 5 under a target of 3.  Neither state
    satisfies progress <= target, and [-1] on the migrated counter leaves
    progress 2 above target 1. *)
Theorem loadItems_exceeds_target :
  loadItems oct6 storageV2 = [spread pushups
    {| Patch.id := None; Patch.title := None; Patch.period := None;
       Patch.count := Some 3; Patch.target := Some 1; Patch.periodKey := None;
       Patch.streak := None; Patch.bestStreak := None |}]
  /\ ~ Forall itemOk (loadItems oct6 storageV2)
  /\ ~ Forall itemOk (loadItems oct6 storageV3)
  /\ map (fun i => (Item.count i, Item.target i))
         (items (decrement "a" (initialStore oct6 storageV2))) = [(2, 1)].
Proof.
  split; [reflexivity|]. split; [|split; [|reflexivity]].
  - intros Hok. apply Forall_inv in Hok. vm_compute in Hok.
    destruct Hok as (_ & _ & Hle). by apply Hle.
  - intros Hok. apply Forall_inv in Hok. vm_compute in Hok.
    destruct Hok as (_ & _ & Hle). by apply Hle.
Qed.

End Clamping.

(** ** The calendar and the printed keys *)

Section Calendar.

Lemma YearFromDay_spec day :
  DayFromYear (YearFromDay day) <= day < DayFromYear (YearFromDay day + 1).
Proof.
  unfold YearFromDay.
  set (y0 := 1970 + 400 * day / 146097).
  assert (Hy0 : 146097 * (y0 - 1970) <= 400 * day < 146097 * (y0 - 1970) + 146097).
  { unfold y0. Z.to_euclidean_division_equations. lia. }
  clearbody y0.
  assert (Hlo : DayFromYear (y0 - 1) <= day).
  { unfold DayFromYear. Z.to_euclidean_division_equations. lia. }
  assert (Hhi : day < DayFromYear (y0 + 2)).
  { unfold DayFromYear. Z.to_euclidean_division_equations. lia. }
  destruct (Z.leb_spec (DayFromYear (y0 + 1)) day).
  - replace (y0 + 1 + 1) with (y0 + 2) by lia. lia.
  - destruct (Z.leb_spec (DayFromYear y0) day).
    + lia.
    + replace (y0 - 1 + 1) with y0 by lia. lia.
Qed.

Lemma MonthFromDay_range day : 0 <= MonthFromDay day <= 11.
Proof.
  unfold MonthFromDay.
  repeat match goal with |- context [if ?b then _ else _] => destruct b end; lia.
Qed.

Lemma MakeDay_of_fields day date :
  MakeDay (YearFromDay day) (MonthFromDay day) date
  = day - DateFromDay day + date.
Proof.
  pose proof (MonthFromDay_range day) as Hm.
  unfold MakeDay, DateFromDay, DayWithinYear.
  rewrite Z.div_small, Z.mod_small, Z.add_0_r by lia.
  generalize (monthStart (InLeapYear (YearFromDay day)) (MonthFromDay day)).
  generalize (DayFromYear (YearFromDay day)). intros a b. lia.
Qed.

Lemma MakeDay_january y : MakeDay y 0 1 = DayFromYear y.
Proof.
  unfold MakeDay. change (0 / 12) with 0. change (0 mod 12) with 0.
  change (monthStart (InLeapYear (y + 0)) 0) with 0. rewrite !Z.add_0_r. lia.
Qed.

Lemma YearFromDay_lower day : -3 <= day -> 1969 <= YearFromDay day.
Proof.
  intros Hday. pose proof (YearFromDay_spec day) as [_ Hhi].
  revert Hhi. generalize (YearFromDay day). intros y. unfold DayFromYear.
  Z.to_euclidean_division_equations. lia.
Qed.

Lemma MakeFullYear_id y : 100 <= y -> MakeFullYear y = y.
Proof.
  intros Hy. unfold MakeFullYear.
  destruct (Z.leb_spec 0 y), (Z.leb_spec y 99); simpl; lia.
Qed.

(** The Thursday of the week of a day. *)
Lemma thursday_of_week day :
  let wd := if WeekDay day =? 0 then 7 else WeekDay day in
  day + (4 - wd) = 7 * ((day + 3) / 7).
Proof.
  unfold WeekDay. destruct (Z.eqb_spec ((day + 4) mod 7) 0); simpl;
  Z.to_euclidean_division_equations; lia.
Qed.

Lemma pretty_N_char_digit x : isDigit (pretty_N_char x) = true.
Proof. unfold pretty_N_char. by repeat case_match. Qed.

Lemma pretty_N_go_digits x s :
  allDigits s = true -> allDigits (pretty_N_go x s) = true.
Proof.
  revert s. induction (N.lt_wf_0 x) as [x _ IH]. intros s Hs.
  destruct (decide (x = 0%N)) as [->|Hx]; [by rewrite pretty_N_go_0|].
  rewrite pretty_N_go_step by lia.
  apply IH; [apply N.div_lt; lia|].
  simpl. by rewrite pretty_N_char_digit.
Qed.

Lemma pretty_Z_digits (z : Z) : 0 <= z -> allDigits (pretty z) = true.
Proof.
  intros Hz. destruct z as [|q|q]; [done| |lia].
  unfold pretty, pretty_Z, pretty, pretty_positive, pretty, pretty_N.
  case_decide; [done|]. by apply pretty_N_go_digits.
Qed.

Lemma digits_split s1 s2 r1 r2 :
  allDigits s1 = true -> allDigits s2 = true ->
  s1 +:+ String "-"%char r1 = s2 +:+ String "-"%char r2 -> s1 = s2 /\ r1 = r2.
Proof.
  revert s2. induction s1 as [|c s1 IH]; intros [|c' s2] H1 H2 Heq; simpl in *.
  - by injection Heq.
  - injection Heq as <- _. by vm_compute in H2. 
  - injection Heq as -> _. by vm_compute in H1.
  - injection Heq as -> Heq. apply andb_true_iff in H1 as [_ H1], H2 as [_ H2].
    destruct (IH s2 H1 H2 Heq) as [-> ->]. done.
Qed.

Lemma week_key_inj (y1 w1 y2 w2 : Z) :
  0 <= y1 -> 0 <= y2 ->
  pretty y1 +:+ "-W" +:+ pretty w1 = pretty y2 +:+ "-W" +:+ pretty w2 ->
  y1 = y2 /\ w1 = w2.
Proof.
  intros Hy1 Hy2 Heq.
  apply digits_split in Heq as [Hy Hw]; try by apply pretty_Z_digits.
  split; [by apply (inj pretty)|].
  injection Hw as Hw. by apply (inj pretty).
Qed.

End Calendar.

Section FixedOffset.

Context `{Host}.
Variable offset : Z.
Hypothesis fixed : forall tl, LocalTZA tl = offset.

(** On a host whose offset never changes, the weekly key names the year
    of the week's Thursday and the number of that Thursday's week in it. *)
Lemma getISOWeek_fixed_offset d :
  0 <= localDay d ->
  getISOWeek d
  = let thursday := 7 * isoWeekIndex d in
    let year := YearFromDay thursday in
    pretty year +:+ "-W"
    +:+ pretty (Math_ceil_div (thursday - DayFromYear year + 1) 7).
Proof.
  intros Hd. unfold getISOWeek, isoWeekIndex.
  destruct d as [n ms]. cbn [localDay] in *.
  assert (Hdate : newDate (getFullYear (mkDate n ms)) (getMonth (mkDate n ms))
                          (getDate (mkDate n ms)) = mkDate n 0).
  { unfold newDate, getFullYear, getMonth, getDate. cbn [localDay].
    rewrite MakeFullYear_id by (pose proof (YearFromDay_lower n); lia).
    rewrite MakeDay_of_fields. f_equal. lia. }
  rewrite Hdate. unfold getDay. cbn [localDay].
  assert (Hthu : setDate (mkDate n 0)
                   (getDate (mkDate n 0)
                    + (4 - (if WeekDay n =? 0 then 7 else WeekDay n)))
                 = mkDate (7 * ((n + 3) / 7)) 0).
  { unfold setDate, getFullYear, getMonth, getDate. cbn [localDay msInDay].
    rewrite MakeDay_of_fields. f_equal.
    pose proof (thursday_of_week n) as Ht. cbv zeta in Ht. lia. }
  rewrite Hthu. set (t := 7 * ((n + 3) / 7)).
  assert (Ht : -3 <= t) by (unfold t; Z.to_euclidean_division_equations; lia).
  unfold getFullYear. cbn [localDay].
  unfold newDate. rewrite MakeFullYear_id
    by (pose proof (YearFromDay_lower t); lia).
  rewrite MakeDay_january. unfold getTime. cbn [localDay msInDay].
  rewrite !fixed. cbv zeta.
  replace (t * msPerDay + 0 - offset
           - (DayFromYear (YearFromDay t) * msPerDay + 0 - offset))
    with ((t - DayFromYear (YearFromDay t)) * msPerDay) by lia.
  rewrite Z.div_mul by done. reflexivity.
Qed.

(** X3 (weekly key, fixed offset).  On a host whose offset from UTC never
    changes, dates from 1970 on get the same weekly key exactly when they
    lie in the same ISO week. *)
Lemma weekly_key_fixed_offset d1 d2 :
  0 <= localDay d1 -> 0 <= localDay d2 ->
  periodKey Weekly d1 = periodKey Weekly d2 <-> sameISOWeek d1 d2.
Proof.
  intros H1 H2. cbn [periodKey]. unfold sameISOWeek.
  rewrite !getISOWeek_fixed_offset by done. cbv zeta.
  split; [|by intros ->].
  assert (Hk1 : 0 <= isoWeekIndex d1)
    by (unfold isoWeekIndex; Z.to_euclidean_division_equations; lia).
  assert (Hk2 : 0 <= isoWeekIndex d2)
    by (unfold isoWeekIndex; Z.to_euclidean_division_equations; lia).
  revert Hk1 Hk2. generalize (isoWeekIndex d1) (isoWeekIndex d2).
  intros k1 k2 Hk1 Hk2 Hkey.
  apply week_key_inj in Hkey as [Hy Hw];
    try (pose proof (YearFromDay_lower (7 * k1));
         pose proof (YearFromDay_lower (7 * k2)); lia).
  pose proof (YearFromDay_spec (7 * k1)) as [Hs1 _].
  pose proof (YearFromDay_spec (7 * k2)) as [Hs2 _].
  rewrite <- Hy in *. revert Hw Hs1 Hs2.
  generalize (DayFromYear (YearFromDay (7 * k1))). intros s.
  unfold Math_ceil_div. intros Hw Hs1 Hs2.
  Z.to_euclidean_division_equations. lia.
Qed.

End FixedOffset.

(** The days around New Year go with the ISO year of their week: Friday
    1 January 2027 belongs to week 53 of 2026 and Monday 29 December 2025
    to week 1 of 2026; Sunday and Monday get different keys though they
    are one day apart. *)
Lemma weekly_key_year_boundary :
  periodKey (H:=utcHost) Weekly (newDate 2027 0 1) = "2026-W53"
  /\ periodKey (H:=utcHost) Weekly (newDate 2025 11 29) = "2026-W1"
  /\ periodKey (H:=utcHost) Weekly (newDate 2025 11 28) = "2025-W52".
Proof. split; [by vm_compute|]. split; by vm_compute. Qed.

(** ** The weekly key under daylight saving time *)

(** C8 (weekly key): the key repeats across the start of daylight saving
    time.  On a host on United States Eastern time, Thursday 5 March and
    Thursday 12 March 2026 lie in different ISO weeks (10 and 11) and both
    get the key 2026-W10: the days from 1 January are counted by dividing
    a difference of time values by 24 hours and rounding down, and that
    difference is one hour short once the clocks have moved forward.  On a
    host without daylight saving time 12 March gets 2026-W11. *)
Theorem weekly_key_repeats_across_dst :
  periodKey (H:=newYork2026) Weekly mar5 = "2026-W10"
  /\ periodKey (H:=newYork2026) Weekly mar12 = "2026-W10"
  /\ ~ sameISOWeek mar5 mar12
  /\ periodKey (H:=utcHost) Weekly mar5 = "2026-W10"
  /\ periodKey (H:=utcHost) Weekly mar12 = "2026-W11".
Proof.
  split; [by vm_compute|]. split; [by vm_compute|].
  split; [by vm_compute|]. split; by vm_compute.
Qed.

(** ** Scenarios *)

(** Basic streak: three increments complete the counter; the check of the
    next day counts one streak, resets the progress and renews the key. *)
Example scenario_basic_streak :
  let st := {| items := [freshPushups]; sectionStreaks := zeroStreaks |} in
  let st := increment "a" (increment "a" (increment "a" st)) in
  map Item.count (items st) = [3]
  /\ check (H:=utcHost) oct7 st
     = {| items := [spread freshPushups
            {| Patch.id := None; Patch.title := None; Patch.period := None;
               Patch.count := Some 0; Patch.target := None;
               Patch.periodKey := Some "2025-10-07";
               Patch.streak := None; Patch.bestStreak := None |}];
          sectionStreaks := mkSectionStreaks 1 0 0 1 0 0 |}.
Proof. split; by vm_compute. Qed.

(** Broken streak: progress 1 under target 3 at the boundary sets the
    streak of 4 back to 0 and keeps the best streak. *)
Example scenario_broken_streak :
  let st := {| items := [spread freshPushups (countPatch 1)];
               sectionStreaks := mkSectionStreaks 4 0 0 4 0 0 |} in
  sectionStreaks (check (H:=utcHost) oct7 st) = mkSectionStreaks 0 0 0 4 0 0.
Proof. by vm_compute. Qed.

(** Catch-up: five days later a complete counter still adds 1, not 5. *)
Example scenario_catch_up :
  sectionStreaks (check (H:=utcHost) oct11 exampleStore)
  = mkSectionStreaks 3 0 0 4 0 0.
Proof. by vm_compute. Qed.

(** Preview: a complete group shows the stored streak plus one; after a
    decrement it shows the stored streak, which has not changed. *)
Example scenario_preview :
  streakDisplay exampleStore Daily = 3
  /\ streakDisplay (decrement "a" exampleStore) Daily = 2
  /\ sectionStreaks (decrement "a" exampleStore) = sectionStreaks exampleStore.
Proof. split; [|split]; by vm_compute. Qed.

(** C1 (rollover idempotence): two calls from one render are not
    idempotent.  [rollover] reads the items of the render that created it,
    and the same callback is registered for the visibility and the focus
    event.  When both events arrive before the component has rendered
    again, on 9 October, with one complete daily counter last reset on
    6 October and a daily streak of 2, the first call counts the boundary
    (streak 3) and the second call, which still sees the stale key, counts
    it again (streak 4): the state after the second call is not the state
    after the first. *)
Theorem rollover_twice_from_one_render :
  let first := rollover (H:=utcHost) (items exampleStore) oct9 exampleStore in
  let second := rollover (H:=utcHost) (items exampleStore) oct9 first in
  sectionStreaks first = mkSectionStreaks 3 0 0 4 0 0
  /\ sectionStreaks second = mkSectionStreaks 4 0 0 4 0 0
  /\ items second = items first
  /\ second <> first.
Proof.
  split; [by vm_compute|]. split; [by vm_compute|]. split; [by vm_compute|].
  intros Heq. apply (f_equal (fun st => daily (sectionStreaks st))) in Heq.
  vm_compute in Heq. discriminate.
Qed.

(** ** Instances of the theorems on the example state *)

Lemma single_increment_witness :
  current Daily (sectionStreaks (check (H:=utcHost) oct9 exampleStore)) = 3
  /\ streakRecord Daily (check (H:=utcHost) oct9 exampleStore) = (3, 4).
Proof.
  apply (single_increment (H:=utcHost) oct9 exampleStore Daily).
  - vm_compute. reflexivity.
  - repeat constructor; simpl; lia.
Defined.

Lemma boundary_evaluates_then_resets_witness :
  streakRecord Daily (check (H:=utcHost) oct9 exampleStore) = (3, 4).
Proof.
  apply (boundary_evaluates_then_resets (H:=utcHost) oct9 exampleStore Daily).
  vm_compute. reflexivity.
Defined.

Lemma empty_group_untouched_witness :
  boundary (H:=utcHost) (items exampleStore) Weekly oct9 = false
  /\ current Weekly (sectionStreaks (check (H:=utcHost) oct9 exampleStore)) = 0
  /\ best Weekly (sectionStreaks (check (H:=utcHost) oct9 exampleStore)) = 0.
Proof.
  apply (empty_group_untouched (H:=utcHost) oct9 exampleStore Weekly).
  repeat constructor. simpl. discriminate.
Defined.

Lemma streak_invariant_reachable_witness :
  current Daily (sectionStreaks (state afterFirstCheck))
  <= best Daily (sectionStreaks (state afterFirstCheck)).
Proof.
  refine (proj1 (streak_invariant_reachable (H:=utcHost) afterFirstCheck Daily _)).
  refine (reach_step (H:=utcHost)
            (mkConfig (initialStore (H:=utcHost) oct6 storageV2) storageV2)
            afterFirstCheck _ _).
  - apply reach_start. left. reflexivity.
  - exact (step_rollover (H:=utcHost)
             (items (initialStore (H:=utcHost) oct6 storageV2)) oct9
             (mkConfig (initialStore (H:=utcHost) oct6 storageV2) storageV2)).
Defined.

Lemma preview_streak_witness :
  streakDisplay exampleStore Daily = 3.
Proof.
  apply (preview_streak exampleStore Daily).
  repeat constructor. simpl. lia.
Defined.

Lemma unknown_id_noop_witness :
  increment "b" exampleStore = exampleStore
  /\ decrement "b" exampleStore = exampleStore.
Proof.
  apply (unknown_id_noop "b" exampleStore).
  repeat constructor. simpl. discriminate.
Defined.

(** ** A record the program does not write *)

(** The loader copies the stored streaks without comparing them: a record
    written by hand with a daily streak of 1 and no best streak loads
    with the streak above the best streak.  The program itself never
    writes such a record. *)
Lemma load_streaks_best_below_current :
  current Daily (loadSectionStreaks storageStreakOnly) = 1
  /\ best Daily (loadSectionStreaks storageStreakOnly) = 0
  /\ ~ (current Daily (loadSectionStreaks storageStreakOnly)
        <= best Daily (loadSectionStreaks storageStreakOnly)).
Proof. split; [done|]. split; [done|]. simpl. lia. Qed.

(** * Further properties of the code *)

(** ** Daily and monthly keys *)

Section Keys.

Lemma pretty_N_go_head x s :
  (0 < x)%N ->
  exists c r, pretty_N_go x s = String c r /\ c <> "0"%char.
Proof.
  revert s. induction (N.lt_wf_0 x) as [x _ IH]. intros s Hx.
  rewrite pretty_N_go_step by done.
  destruct (decide (x `div` 10 = 0)%N) as [Hq|Hq].
  - rewrite Hq, pretty_N_go_0. eexists _, _. split; [done|].
    assert (x < 10)%N.
    { pose proof (N.div_mod x 10 ltac:(lia)).
      pose proof (N.mod_lt x 10 ltac:(lia)). lia. }
    rewrite N.mod_small by done.
    assert (x = 1 \/ x = 2 \/ x = 3 \/ x = 4 \/ x = 5 \/ x = 6
            \/ x = 7 \/ x = 8 \/ x = 9)%N as Hc by lia.
    intuition (subst; discriminate).
  - apply IH; [apply N.div_lt; lia | by apply N.neq_0_lt_0].
Qed.

Lemma pretty_Z_head (z : Z) :
  0 < z -> exists c r, pretty z = String c r /\ c <> "0"%char.
Proof.
  intros Hz. destruct z as [|q|q]; [lia| |lia].
  unfold pretty, pretty_Z, pretty, pretty_positive, pretty, pretty_N.
  case_decide; [done|]. by apply pretty_N_go_head.
Qed.

Lemma pad_digits n : 0 <= n -> allDigits (pad n) = true.
Proof.
  intros Hn. unfold pad. destruct (n <? 10); [change (allDigits (pretty n) = true)|];
    by apply pretty_Z_digits.
Qed.

Lemma pad_inj a b : 0 <= a -> 0 <= b -> pad a = pad b -> a = b.
Proof.
  intros Ha Hb. unfold pad.
  destruct (Z.ltb_spec a 10), (Z.ltb_spec b 10); intros Heq.
  - injection Heq as Heq. by apply (inj pretty).
  - exfalso. destruct (pretty_Z_head b) as (c & r & Hb' & Hc); [lia|].
    rewrite Hb' in Heq. injection Heq as <- _. done.
  - exfalso. destruct (pretty_Z_head a) as (c & r & Ha' & Hc); [lia|].
    rewrite Ha' in Heq. injection Heq as -> _. done.
  - by apply (inj pretty).
Qed.

Lemma DayWithinYear_nonneg day : 0 <= DayWithinYear day.
Proof. unfold DayWithinYear. pose proof (YearFromDay_spec day). lia. Qed.

Lemma DateFromDay_pos day : 1 <= DateFromDay day.
Proof.
  pose proof (DayWithinYear_nonneg day) as Hd.
  unfold DateFromDay, MonthFromDay.
  assert (0 <= InLeapYear (YearFromDay day) <= 1) as Hl
    by (unfold InLeapYear; destruct (_ =? _); lia).
  repeat match goal with
         | |- context [if ?a <? ?b then _ else _] => destruct (Z.ltb_spec a b)
         end; simpl; lia.
Qed.

Lemma day_of_fields d1 d2 :
  YearFromDay d1 = YearFromDay d2 -> MonthFromDay d1 = MonthFromDay d2 ->
  DateFromDay d1 = DateFromDay d2 -> d1 = d2.
Proof.
  intros Hy Hm Hd.
  pose proof (MakeDay_of_fields d1 (DateFromDay d1)) as H1.
  pose proof (MakeDay_of_fields d2 (DateFromDay d2)) as H2.
  rewrite Hy, Hm, Hd in H1. lia.
Qed.

Lemma append_dash_inj s1 s2 r1 r2 :
  allDigits s1 = true -> allDigits s2 = true ->
  s1 +:+ "-" +:+ r1 = s2 +:+ "-" +:+ r2 -> s1 = s2 /\ r1 = r2.
Proof. intros H1 H2 Heq. by apply digits_split. Qed.

(** X1 (daily key).  Two dates from 1970 on get the same daily key exactly
    when they fall on the same local day, whatever the time of day. *)
Theorem daily_key_same_day d1 d2 :
  0 <= localDay d1 -> 0 <= localDay d2 ->
  getISODate d1 = getISODate d2 <-> localDay d1 = localDay d2.
Proof.
  intros H1 H2. split; [|unfold getISODate, getFullYear, getMonth, getDate; by intros ->].
  unfold getISODate, getFullYear, getMonth, getDate. intros Heq.
  pose proof (YearFromDay_lower (localDay d1)).
  pose proof (YearFromDay_lower (localDay d2)).
  pose proof (MonthFromDay_range (localDay d1)).
  pose proof (MonthFromDay_range (localDay d2)).
  pose proof (DateFromDay_pos (localDay d1)).
  pose proof (DateFromDay_pos (localDay d2)).
  apply append_dash_inj in Heq as [Hy Heq]; [|apply pretty_Z_digits; lia..].
  apply append_dash_inj in Heq as [Hm Hd]; [|apply pad_digits; lia..].
  apply (inj pretty) in Hy. apply pad_inj in Hm, Hd; try lia.
  apply day_of_fields; [done|lia|done].
Qed.

(** X2 (monthly key).  Two dates from 1970 on get the same monthly key
    exactly when they lie in the same month of the same year. *)
Theorem monthly_key_same_month d1 d2 :
  0 <= localDay d1 -> 0 <= localDay d2 ->
  getMonthKey d1 = getMonthKey d2
  <-> getFullYear d1 = getFullYear d2 /\ getMonth d1 = getMonth d2.
Proof.
  intros H1 H2. split; [|unfold getMonthKey; by intros [-> ->]].
  unfold getMonthKey, getFullYear, getMonth. intros Heq.
  pose proof (YearFromDay_lower (localDay d1)).
  pose proof (YearFromDay_lower (localDay d2)).
  pose proof (MonthFromDay_range (localDay d1)).
  pose proof (MonthFromDay_range (localDay d2)).
  apply append_dash_inj in Heq as [Hy Hm]; [|apply pretty_Z_digits; lia..].
  apply (inj pretty) in Hy. apply pad_inj in Hm; lia.
Qed.

End Keys.

(** ** More on the rollover *)

Section RolloverMore.

Context `{Host}.

Lemma periodKey_of_day p d1 d2 :
  localDay d1 = localDay d2 -> periodKey p d1 = periodKey p d2.
Proof.
  destruct d1 as [n ms1], d2 as [n' ms2]. cbn [localDay]. intros <-.
  destruct p; cbn [periodKey];
    unfold getISODate, getISOWeek, getMonthKey, getFullYear, getMonth, getDate;
    cbn [localDay]; reflexivity.
Qed.

(** X5 (checks of one day).  When the component has rendered the state a
    rollover left, so that the callback of the next trigger holds the
    items of that state, a rollover at any later time of the same local
    day changes nothing. *)
Theorem check_same_day now1 now2 st :
  localDay now1 = localDay now2 ->
  let st1 := rollover (items st) now1 st in
  rollover (items st1) now2 st1 = st1.
Proof.
  intros Hday. change (check now2 (check now1 st) = check now1 st).
  assert (Hk : forall p, periodKey p now2 = periodKey p now1)
    by (intros p; by apply periodKey_of_day).
  pose proof (check_items now1 st) as Hit.
  unfold check at 1. unfold rollover. rewrite Hit.
  assert (Hb : forall p, boundary (map (resetItem now1) (items st)) p now2 = false).
  { intros p. apply boundary_false, Forall_forall. intros i Hi Hp.
    apply list_elem_of_fmap in Hi as (j & -> & _).
    rewrite resetItem_key, Hk. rewrite resetItem_period in Hp. by rewrite Hp. }
  by rewrite !Hb.
Qed.

(** X6 (keys after a check).  After a check every counter carries the
    current key of its period kind, so no kind has a boundary left. *)
Theorem check_keys_current now st :
  Forall (fun i => Item.periodKey i = periodKey (Item.period i) now)
         (items (check now st))
  /\ forall p, boundary (items (check now st)) p now = false.
Proof.
  rewrite check_items. split.
  - apply Forall_forall. intros i (j & -> & _)%list_elem_of_fmap.
    by rewrite resetItem_key, resetItem_period.
  - intros p. apply boundary_after_reset.
Qed.

Lemma resetItem_frame now it : frame (resetItem now it) = frame it.
Proof. unfold resetItem. by case_bool_decide. Qed.

(** X7 (what a check keeps).  A check keeps the number and order of the
    counters and, of each, the id, title, period, target, streak and best
    streak; the progress of a counter is kept or set to 0. *)
Theorem check_keeps_frame now st :
  map frame (items (check now st)) = map frame (items st)
  /\ forall (k : nat) (it : Item.t),
       items st !! k = Some it ->
       exists it', items (check now st) !! k = Some it'
                   /\ frame it' = frame it
                   /\ (Item.count it' = Item.count it \/ Item.count it' = 0).
Proof.
  rewrite check_items. split.
  - rewrite map_map. apply map_ext. intros i. apply resetItem_frame.
  - intros k it Hk. exists (resetItem now it). split.
    + change (map (resetItem now) (items st)) with (resetItem now <$> items st).
      by rewrite list_lookup_fmap, Hk.
    + split; [apply resetItem_frame|]. unfold resetItem.
      case_bool_decide; [by right|by left].
Qed.

(** X8 (best streak is monotone).  A check never lowers the best streak of
    a period kind, and it raises the current streak by at most 1. *)
Theorem best_never_decreases now st p :
  best p (sectionStreaks st) <= best p (sectionStreaks (check now st))
  /\ current p (sectionStreaks (check now st))
     <= Z.max 0 (current p (sectionStreaks st) + 1).
Proof.
  pose proof (check_streakRecord now st p) as Hrec.
  unfold streakRecord, recordBoundary in Hrec. cbn [fst snd] in Hrec.
  destruct (boundary (items st) p now), (allDone (items st) p);
    injection Hrec as -> ->; lia.
Qed.

(** X9 (broken streak).  When a boundary is detected for a period kind and
    some counter of the kind is below its target, the check sets the
    current streak to 0; the best streak is kept (raised to 0 if it was
    negative). *)
Theorem broken_streak now st p :
  boundary (items st) p now = true ->
  Exists (fun i => Item.period i = p /\ Item.count i < Z.max 1 (Item.target i))
         (items st) ->
  current p (sectionStreaks (check now st)) = 0
  /\ best p (sectionStreaks (check now st)) = Z.max (best p (sectionStreaks st)) 0.
Proof.
  intros Hb Hex.
  assert (Hdone : allDone (items st) p = false).
  { destruct (allDone (items st) p) eqn:Hd; [|done]. exfalso.
    apply allDone_true in Hd as [_ Hall].
    apply Exists_exists in Hex as (i & Hi & Hp & Hlt).
    rewrite Forall_forall in Hall. specialize (Hall i Hi Hp). lia. }
  pose proof (check_streakRecord now st p) as Hrec.
  rewrite Hb, Hdone in Hrec. unfold streakRecord, recordBoundary in Hrec.
  cbn [fst snd] in Hrec. by injection Hrec as -> ->.
Qed.

(** X10 (kinds roll over independently).  A period kind without a
    boundary keeps its streak record and all its counters, also when the
    same check rolls another kind over. *)
Theorem kind_without_boundary_untouched now st p :
  boundary (items st) p now = false ->
  streakRecord p (check now st) = streakRecord p st
  /\ forall (k : nat) (it : Item.t),
       items st !! k = Some it -> Item.period it = p ->
       items (check now st) !! k = Some it.
Proof.
  intros Hb. split.
  - by rewrite check_streakRecord, Hb.
  - intros k it Hk Hp. rewrite check_items.
    change (map (resetItem now) (items st)) with (resetItem now <$> items st).
    rewrite list_lookup_fmap, Hk. simpl. f_equal.
    apply boundary_false in Hb. rewrite Forall_forall in Hb.
    unfold resetItem. rewrite bool_decide_eq_false_2; [done|].
    intros Hne. apply Hne. rewrite Hp. symmetry. apply Hb; [|done].
    by eapply list_elem_of_lookup_2.
Qed.

(** X11 (header after a rollover).  Right after a check that detected a
    boundary for a period kind, the header of the kind shows the stored
    streak without the preview bonus: a counter was just reset to 0. *)
Theorem no_preview_after_boundary now st p :
  boundary (items st) p now = true ->
  streakDisplay (check now st) p = current p (sectionStreaks (check now st)).
Proof.
  intros Hb. unfold streakDisplay.
  assert (Hdone : sectionDone (items (check now st)) p = false); [|by rewrite Hdone, Z.add_0_r].
  unfold sectionDone. apply andb_false_iff. right.
  apply boundary_true, Exists_exists in Hb as (i & Hi & Hp & Hk).
  apply not_true_iff_false. intros Hall. rewrite forallb_forall in Hall.
  specialize (Hall (resetItem now i)).
  assert (Hr : reached (resetItem now i) = true).
  { apply Hall, filter_In. split.
    - rewrite check_items. apply in_map. by apply list_elem_of_In.
    - rewrite resetItem_period. by apply bool_decide_eq_true. }
  apply reached_le in Hr. unfold resetItem in Hr.
  rewrite bool_decide_eq_true_2 in Hr by (rewrite Hp; congruence).
  simpl in Hr. lia.
Qed.

End RolloverMore.

(** ** The +1 and -1 buttons *)

Section Buttons.

Context `{Host}.

Lemma spread_countPatch_same it :
  spread it (countPatch (Item.count it)) = it.
Proof. by destruct it. Qed.

Lemma spread_countPatch_twice it a b :
  spread (spread it (countPatch a)) (countPatch b) = spread it (countPatch b).
Proof. by destruct it. Qed.

Lemma find_by_id (l : list Item.t) (it : Item.t) :
  NoDup (map Item.id l) -> it ∈ l ->
  find (fun i => bool_decide (Item.id i = Item.id it)) l = Some it.
Proof.
  induction l as [|j l IH]; simpl; intros Hnd Hin.
  - by apply elem_of_nil in Hin.
  - apply NoDup_cons in Hnd as [Hj Hnd]. case_bool_decide as Hid.
    + apply elem_of_cons in Hin as [->|Hin]; [done|].
      exfalso. apply Hj. rewrite Hid. apply list_elem_of_fmap. by exists it.
    + apply elem_of_cons in Hin as [->|Hin]; [done|]. by apply IH.
Qed.

(** With unique ids, patching by id rewrites one counter. *)
Lemma updateItem_unique (l : list Item.t) (it : Item.t) patch :
  NoDup (map Item.id l) -> it ∈ l ->
  map (fun i => if bool_decide (Item.id i = Item.id it)
                then spread i patch else i) l
  = map (fun i => if bool_decide (i = it) then spread it patch else i) l.
Proof.
  intros Hnd Hin. apply map_ext_in. intros i Hi%list_elem_of_In.
  case_bool_decide as Hid.
  - rewrite (unique_by_id l it i Hnd Hin Hi Hid). by rewrite bool_decide_eq_true_2.
  - rewrite bool_decide_eq_false_2; [done|]. by intros ->.
Qed.

Lemma increment_items (st : Store) (it : Item.t) :
  NoDup (map Item.id (items st)) -> it ∈ items st ->
  items (increment (Item.id it) st)
  = map (fun i => if bool_decide (i = it)
                  then spread it (countPatch
                         (Z.min (Item.count it + 1) (Z.max 1 (Item.target it))))
                  else i) (items st).
Proof.
  intros Hnd Hin. unfold increment. rewrite (find_by_id _ it Hnd Hin).
  unfold updateItem, setItems. cbn [items].
  rewrite (updateItem_unique _ it _ Hnd Hin).
  unfold js_or. by destruct (Z.eqb_spec (Item.count it) 0) as [->|].
Qed.

Lemma decrement_items (st : Store) (it : Item.t) :
  NoDup (map Item.id (items st)) -> it ∈ items st ->
  items (decrement (Item.id it) st)
  = map (fun i => if bool_decide (i = it)
                  then spread it (countPatch (Z.max 0 (Item.count it - 1)))
                  else i) (items st).
Proof.
  intros Hnd Hin. unfold decrement. rewrite (find_by_id _ it Hnd Hin).
  unfold updateItem, setItems. cbn [items].
  rewrite (updateItem_unique _ it _ Hnd Hin).
  unfold js_or. by destruct (Z.eqb_spec (Item.count it) 0) as [->|].
Qed.

Lemma increment_ids (id : string) st :
  map Item.id (items (increment id st)) = map Item.id (items st).
Proof.
  unfold increment. destruct (find _ _); [|done].
  unfold updateItem, setItems. cbn [items]. rewrite map_map.
  apply map_ext. intros i. by case_bool_decide.
Qed.

Lemma increment_streaks (id : string) st :
  sectionStreaks (increment id st) = sectionStreaks st.
Proof. unfold increment. by destruct (find _ _). Qed.

Lemma decrement_streaks (id : string) st :
  sectionStreaks (decrement id st) = sectionStreaks st.
Proof. unfold decrement. by destruct (find _ _). Qed.

Lemma map_replace_lookup (l : list Item.t) (it new : Item.t) (k : nat) :
  l !! k = Some it ->
  map (fun i => if bool_decide (i = it) then new else i) l !! k = Some new.
Proof.
  intros Hk.
  change (map ?f l) with (f <$> l). rewrite list_lookup_fmap, Hk. simpl.
  by rewrite bool_decide_eq_true_2.
Qed.

(** The handler alone, called n times on settled states. *)
Lemma increment_n_times (st : Store) (k : nat) (it : Item.t) (n : nat) :
  NoDup (map Item.id (items st)) ->
  items st !! k = Some it ->
  Item.count it <= Z.max 1 (Item.target it) ->
  items (Nat.iter n (increment (Item.id it)) st) !! k
  = Some (spread it (countPatch
            (Z.min (Item.count it + Z.of_nat n) (Z.max 1 (Item.target it))))).
Proof.
  intros Hnd Hk Hle. 
  assert (Hgen : NoDup (map Item.id (items (Nat.iter n (increment (Item.id it)) st)))
    /\ items (Nat.iter n (increment (Item.id it)) st) !! k
       = Some (spread it (countPatch
            (Z.min (Item.count it + Z.of_nat n) (Z.max 1 (Item.target it))))));
    [|by destruct Hgen].
  induction n as [|n [IHnd IH]].
  - simpl. split; [done|]. rewrite Hk. f_equal.
    rewrite Z.add_0_r, Z.min_l by done. symmetry. apply spread_countPatch_same.
  - rewrite Nat.iter_succ. set (st' := Nat.iter n (increment (Item.id it)) st) in *.
    split; [by rewrite increment_ids|].
    set (it' := spread it _) in IH.
    assert (Hid : Item.id it' = Item.id it) by done.
    rewrite <- Hid.
    rewrite (increment_items st' it'); [|done|by eapply list_elem_of_lookup_2].
    rewrite (map_replace_lookup _ _ _ _ IH). f_equal.
    unfold it'. rewrite spread_countPatch_twice. f_equal. f_equal.
    simpl. lia.
Qed.

(** The two handlers alone, one after the other. *)
Lemma decrement_undoes_increment (st : Store) (it : Item.t) :
  NoDup (map Item.id (items st)) -> it ∈ items st ->
  0 <= Item.count it -> Item.count it + 1 <= Z.max 1 (Item.target it) ->
  decrement (Item.id it) (increment (Item.id it) st) = st.
Proof.
  intros Hnd Hin Hc0 Hc1.
  set (it' := spread it (countPatch
                (Z.min (Item.count it + 1) (Z.max 1 (Item.target it))))).
  assert (Hitems : items (increment (Item.id it) st)
                   = map (fun i => if bool_decide (i = it) then it' else i) (items st))
    by (by apply increment_items).
  assert (Hin' : it' ∈ items (increment (Item.id it) st)).
  { rewrite Hitems. apply list_elem_of_fmap. exists it.
    by rewrite bool_decide_eq_true_2. }
  assert (Hnd' : NoDup (map Item.id (items (increment (Item.id it) st))))
    by (by rewrite increment_ids).
  assert (Hid : Item.id it' = Item.id it) by done.
  destruct st as [l ss]. cbn [items] in *.
  rewrite <- Hid.
  pose proof (decrement_items _ it' Hnd' Hin') as Hdec.
  pose proof (decrement_streaks (Item.id it') (increment (Item.id it) (mkStore l ss))) as Hss.
  rewrite increment_streaks in Hss. cbn [sectionStreaks] in Hss.
  rewrite Hid in *.
  destruct (decrement (Item.id it) (increment (Item.id it) (mkStore l ss)))
    as [l2 ss2]. cbn [items sectionStreaks] in *. subst ss2. f_equal.
  rewrite Hdec, Hitems, map_map.
  transitivity (map id l); [|apply map_id].
  apply map_ext_in. intros i Hi%list_elem_of_In.
  destruct (decide (i = it)) as [->|Hne].
  - rewrite (bool_decide_eq_true_2 (it = it)) by done.
    rewrite bool_decide_eq_true_2 by done.
    unfold it'. rewrite spread_countPatch_twice.
    replace (Z.max 0 (Item.count (spread it _) - 1)) with (Item.count it)
      by (simpl; lia).
    apply spread_countPatch_same.
  - rewrite (bool_decide_eq_false_2 (i = it)) by done.
    rewrite bool_decide_eq_false_2; [done|].
    intros ->. apply Hne.
    apply (unique_by_id l it it' Hnd Hin) in Hi; done.
Qed.

End Buttons.

(** ** Presses: a handler and the check that follows it *)

Section Presses.

Context `{Host}.

(** With every key current the check that follows a render does nothing. *)
Lemma check_keysCurrent now st :
  keysCurrent now (items st) -> check now st = st.
Proof.
  intros Hk. unfold check, rollover.
  assert (Hb : forall p, boundary (items st) p now = false).
  { intros p. apply boundary_false. eapply Forall_impl; [exact Hk|].
    intros i Hi Hp. by rewrite Hi, Hp. }
  by rewrite !Hb.
Qed.

Lemma keysCurrent_updateItem_count now (id : string) n st :
  keysCurrent now (items st) ->
  keysCurrent now (items (updateItem id (countPatch n) st)).
Proof.
  intros Hk. unfold keysCurrent, updateItem, setItems in *. cbn [items].
  apply Forall_forall. intros i' (i & -> & Hi)%list_elem_of_fmap.
  apply (proj1 (Forall_forall _ _) Hk) in Hi. by case_bool_decide.
Qed.

Lemma keysCurrent_increment now (id : string) st :
  keysCurrent now (items st) -> keysCurrent now (items (increment id st)).
Proof.
  intros Hk. unfold increment. destruct (find _ _); [|done].
  by apply keysCurrent_updateItem_count.
Qed.

Lemma plusOne_keysCurrent now (id : string) st :
  keysCurrent now (items st) -> plusOne id now st = increment id st.
Proof. intros Hk. apply check_keysCurrent. by apply keysCurrent_increment. Qed.

Lemma minusOne_keysCurrent now (id : string) st :
  keysCurrent now (items st) -> minusOne id now st = decrement id st.
Proof.
  intros Hk. apply check_keysCurrent. unfold decrement.
  destruct (find _ _); [|done]. by apply keysCurrent_updateItem_count.
Qed.

Lemma fold_plusOne (id : string) (nows : list Date) st :
  Forall (fun now => keysCurrent now (items st)) nows ->
  fold_left (fun s now => plusOne id now s) nows st
  = Nat.iter (length nows) (increment id) st.
Proof.
  revert st. induction nows as [|now nows IH]; intros st Hall; [done|].
  apply Forall_cons in Hall as [Hnow Hall]. cbn [fold_left length].
  rewrite plusOne_keysCurrent by done. rewrite IH.
  - symmetry. apply Nat.iter_succ_r.
  - eapply Forall_impl; [exact Hall|]. intros now'. apply keysCurrent_increment.
Qed.



End Presses.

(** ** Editing the collection *)

Section Editing.

Context `{Host}.

(** X20 (the buttons saturate).  With unique ids, [+1] on a counter that
    is at its target and [-1] on a counter at 0 leave the whole state as
    it is. *)
Theorem buttons_saturate (st : Store) (it : Item.t) :
  NoDup (map Item.id (items st)) -> it ∈ items st ->
  (Item.count it = Z.max 1 (Item.target it) -> increment (Item.id it) st = st)
  /\ (Item.count it = 0 -> decrement (Item.id it) st = st).
Proof.
  intros Hnd Hin.
  assert (Hsame : forall new, new = it ->
    map (fun i => if bool_decide (i = it) then new else i) (items st) = items st).
  { intros new ->. transitivity (map id (items st)); [|apply map_id].
    apply map_ext. intros i. by case_bool_decide as E; [rewrite E|]. }
  split; intros Hc.
  - pose proof (increment_items st it Hnd Hin) as Hi.
    pose proof (increment_streaks (Item.id it) st) as Hs.
    rewrite Hsame in Hi.
    + destruct st as [l ss], (increment _ _) as [l' ss']. cbn [items sectionStreaks] in *. congruence.
    + replace (Z.min _ _) with (Item.count it) by lia.
      apply spread_countPatch_same.
  - pose proof (decrement_items st it Hnd Hin) as Hi.
    pose proof (decrement_streaks (Item.id it) st) as Hs.
    rewrite Hsame in Hi.
    + destruct st as [l ss], (decrement _ _) as [l' ss']. cbn [items sectionStreaks] in *. congruence.
    + replace (Z.max _ _) with (Item.count it) by lia.
      apply spread_countPatch_same.
Qed.

(** X21 (decrement frame).  [decrement id] keeps the section streaks, the
    number and order of the counters and, of each counter, everything but
    its progress; counters with another id are unchanged and the progress
    of a counter with this id is not negative afterwards. *)
Theorem decrement_frame (id : string) st :
  sectionStreaks (decrement id st) = sectionStreaks st
  /\ length (items (decrement id st)) = length (items st)
  /\ forall (k : nat) (it : Item.t),
       items st !! k = Some it ->
       exists it',
         items (decrement id st) !! k = Some it'
         /\ frame it' = frame it
         /\ Item.periodKey it' = Item.periodKey it
         /\ (Item.id it <> id -> it' = it)
         /\ (Item.id it = id -> 0 <= Item.count it').
Proof.
  unfold decrement.
  destruct (find _ (items st)) as [found|] eqn:Hfind.
  - unfold updateItem, setItems. cbn [items sectionStreaks].
    split; [done|]. split; [apply length_map|].
    intros k it Hk. eexists. split.
    { change (map ?f ?l) with (f <$> l). by rewrite list_lookup_fmap, Hk. }
    case_bool_decide as Hid; [|done].
    split; [done|]. split; [done|]. split; [done|]. intros _. simpl. lia.
  - split; [done|]. split; [done|]. intros k it Hk. exists it.
    split; [done|]. split; [done|]. split; [done|]. split; [done|].
    intros Hid. exfalso.
    assert (Hin : In it (items st))
      by (by eapply list_elem_of_In, list_elem_of_lookup_2).
    pose proof (find_none _ _ Hfind it Hin) as Hf.
    by apply bool_decide_eq_false in Hf.
Qed.

(** X22 (set target).  With unique ids, setting the target of a counter
    never raises the progress of any counter, leaves all other counters
    as they are, and does nothing when the prompt is cancelled. *)
Theorem setTarget_never_raises_progress (st : Store) (it : Item.t) val :
  NoDup (map Item.id (items st)) -> it ∈ items st ->
  forall (k : nat) (i : Item.t),
    items st !! k = Some i ->
    exists i', items (setTarget it val st) !! k = Some i'
      /\ Item.count i' <= Item.count i
      /\ (i <> it -> i' = i)
      /\ (val = None -> i' = i).
Proof.
  intros Hnd Hin k i Hk. unfold setTarget. destruct val as [v|].
  - unfold updateItem, setItems. cbn [items].
    rewrite (updateItem_unique _ it _ Hnd Hin).
    eexists. split.
    { change (map ?f ?l) with (f <$> l). by rewrite list_lookup_fmap, Hk. }
    case_bool_decide as E.
    + subst i. split; [simpl; lia|]. split; [done|discriminate].
    + split; [lia|]. split; [done|discriminate].
  - exists i. split; [done|]. split; [lia|]. done.
Qed.

(** X23 (remove).  [removeItem id] keeps the section streaks and exactly
    the counters with another id, in their order; it does nothing when no
    counter has the id, and afterwards [+1] on the id does nothing. *)
Theorem removeItem_removes (id : string) st :
  sectionStreaks (removeItem id st) = sectionStreaks st
  /\ (forall i, i ∈ items (removeItem id st) <-> i ∈ items st /\ Item.id i <> id)
  /\ items (removeItem id st) `sublist_of` items st
  /\ (Forall (fun i => Item.id i <> id) (items st) -> removeItem id st = st)
  /\ increment id (removeItem id st) = removeItem id st.
Proof.
  unfold removeItem, setItems. cbn [items sectionStreaks].
  split; [done|].
  assert (Hmem : forall i,
    i ∈ List.filter (fun i => bool_decide (Item.id i <> id)) (items st)
    <-> i ∈ items st /\ Item.id i <> id).
  { intros i. rewrite !list_elem_of_In, filter_In.
    by rewrite bool_decide_eq_true. }
  split; [exact Hmem|]. split; [|split].
  - clear Hmem.
    induction (items st) as [|j l IH]; cbn [List.filter]; [constructor|].
    case_bool_decide; [by apply sublist_skip|by apply sublist_cons].
  - clear Hmem. intros Hall. destruct st as [l ss].
    cbn [items sectionStreaks] in *. f_equal.
    induction Hall as [|j l Hj _ IH]; cbn [List.filter]; [done|].
    rewrite bool_decide_eq_true_2 by done. by rewrite IH.
  - unfold increment. cbn [items]. rewrite find_none_id; [done|].
    apply Forall_forall. intros i Hi. by apply Hmem in Hi as [_ ?].
Qed.

(** X24 (create).  Submitting the new-item form puts a counter in front
    of the others, with the given id and period, progress 0, a target of
    at least 1, the current key and a title that is not empty.  It keeps
    the section streaks, creates no boundary at that instant, and the
    header of its section shows the stored streak without preview bonus. *)
Theorem createItem_fresh newId now title p target st :
  sectionStreaks (createItem newId now title p target st) = sectionStreaks st
  /\ (forall q, boundary (items (createItem newId now title p target st)) q now
                = boundary (items st) q now)
  /\ (exists it, items (createItem newId now title p target st) = it :: items st
                 /\ Item.id it = newId /\ Item.period it = p
                 /\ Item.count it = 0 /\ 1 <= Item.target it
                 /\ Item.periodKey it = periodKey p now
                 /\ Item.title it <> "")
  /\ sectionHeader (createItem newId now title p target st) p
     = Some (current p (sectionStreaks st), best p (sectionStreaks st)).
Proof.
  unfold createItem, addItem, setItems. cbn [items sectionStreaks].
  split; [done|]. split; [|split].
  - intros q. unfold boundary. cbn [existsb spread default Patch.periodKey
      Patch.period Item.period Item.periodKey].
    case_bool_decide as Hq; [|done]. subst q.
    by rewrite (bool_decide_eq_false_2 (periodKey p now <> periodKey p now)) by auto.
  - eexists. split; [done|].
    cbn -[trim str_or periodKey Z.min Z.max number_or].
    repeat split; try lia.
    unfold str_or at 1. by case_bool_decide.
  - set (it := spread _ _).
    assert (Hr : reached it = false).
    { apply not_true_iff_false. intros Hr%reached_le. unfold it in Hr.
      cbn -[Z.min Z.max number_or] in Hr. lia. }
    assert (Hp : bool_decide (Item.period it = p) = true)
      by (by apply bool_decide_eq_true).
    unfold sectionHeader, streakDisplay, sectionDone, hasPeriod.
    cbn [items sectionStreaks existsb List.filter].
    rewrite Hp. cbn [orb forallb andb]. rewrite Hr. cbn [andb].
    by rewrite Z.add_0_r.
Qed.

End Editing.

(** ** Saving, loading and the derived lists *)

Section Persistence.

Context `{Host}.

(** The loader of the current version returns a saved counter within the
    loader's bounds as it was saved. *)
Lemma loadItems_saved now (l : list Item.t) ls :
  Forall loadable l -> loadItems now (saveItems true l ls) = l.
Proof.
  intros Hok. unfold saveItems, loadItems. cbn [mhc_v3].
  rewrite map_map. transitivity (map id l); [|apply map_id].
  apply map_ext_in. intros i Hi%list_elem_of_In.
  apply (proj1 (Forall_forall _ _) Hok) in Hi as [Ht Hc].
  destruct i as [iid ttl per c t key s b]. cbn in *. unfold js_or.
  destruct (Z.eqb_spec c 0), (Z.eqb_spec t 0); f_equal; lia.
Qed.

(** X26 (restart round trip).  For a state whose numbers are finite (whole
    numbers of at most 2^53 in size, as the model has them) and whose
    counters have a target of at least 1 and progress of at least 0,
    saving the state and loading it again gives back the same state, items
    and section streaks, whatever older versions the storage still holds.
    (An infinite target, which the prompt accepts, is written as null and
    does not come back; the model has no such state.) *)
Theorem restart_round_trip now st ls :
  Forall loadable (items st) ->
  Forall finiteItem (items st) ->
  finiteStreaks (sectionStreaks st) ->
  initialStore now (persist st ls) = st.
Proof.
  intros Hok _ _. unfold initialStore, persist.
  destruct st as [l [d w m bd bw bm]]. cbn [items sectionStreaks] in *.
  f_equal. change (loadItems now (saveItems true l ls) = l).
  by apply loadItems_saved.
Qed.

Lemma fold_push_cards (l : list Item.t) (m : ByPeriod.t) (p : Period) :
  cards (fold_left push l m) p
  = cards m p ++ List.filter (fun i => bool_decide (Item.period i = p)) l.
Proof.
  revert m. induction l as [|i l IH]; intros m; cbn [fold_left List.filter].
  - by rewrite app_nil_r.
  - rewrite IH. unfold push.
    destruct (Item.period i) eqn:Hi, p; cbn [cards ByPeriod.daily
      ByPeriod.weekly ByPeriod.monthly];
      try (rewrite bool_decide_eq_true_2 by done; by rewrite <- app_assoc);
      by rewrite bool_decide_eq_false_2.
Qed.

(** X28 (cards of a section).  The list built for a section holds exactly
    the counters of its period kind, in the order of the collection; it is
    empty exactly when the section is not rendered, and the three lists
    together have as many counters as the collection. *)
Theorem byPeriod_cards (l : list Item.t) (p : Period) :
  cards (byPeriod l) p
  = List.filter (fun i => bool_decide (Item.period i = p)) l
  /\ (cards (byPeriod l) p = [] <-> hasPeriod l p = false)
  /\ (length (cards (byPeriod l) Daily) + length (cards (byPeriod l) Weekly)
      + length (cards (byPeriod l) Monthly) = length l)%nat.
Proof.
  assert (Hc : forall q, cards (byPeriod l) q
             = List.filter (fun i => bool_decide (Item.period i = q)) l).
  { intros q. unfold byPeriod. rewrite fold_push_cards. by destruct q. }
  split; [apply Hc|]. split.
  - rewrite Hc. clear Hc. unfold hasPeriod.
    induction l as [|i l IH]; cbn [List.filter existsb]; [done|].
    destruct (bool_decide (Item.period i = p)); cbn [orb]; [by split|done].
  - rewrite !Hc. clear Hc. induction l as [|i l IH]; [done|].
    cbn [List.filter length].
    destruct (Item.period i);
      repeat match goal with
             | |- context [bool_decide (?a = ?b)] =>
                 first [ rewrite (bool_decide_eq_true_2 (a = b)) by reflexivity
                       | rewrite (bool_decide_eq_false_2 (a = b)) by discriminate ]
             end;
      cbn [length]; lia.
Qed.

End Persistence.

(** ** Instances of the further properties *)

(** Hypotheses on the example data are decided by evaluation. *)
Ltac by_evaluation := apply (bool_decide_unpack _); vm_compute; exact I.

Lemma daily_key_same_day_witness :
  getISODate oct6 = getISODate oct6noon <-> localDay oct6 = localDay oct6noon.
Proof. apply daily_key_same_day; by_evaluation. Defined.

Lemma monthly_key_same_month_witness :
  getMonthKey oct6 = getMonthKey oct9
  <-> getFullYear oct6 = getFullYear oct9 /\ getMonth oct6 = getMonth oct9.
Proof. apply monthly_key_same_month; by_evaluation. Defined.

Lemma weekly_key_fixed_offset_witness :
  periodKey (H:=utcHost) Weekly oct6 = periodKey (H:=utcHost) Weekly oct9
  <-> sameISOWeek oct6 oct9.
Proof.
  apply (weekly_key_fixed_offset (H:=utcHost) 0); [reflexivity| |]; by_evaluation.
Defined.

Lemma check_same_day_witness :
  check (H:=utcHost) oct6noon (check (H:=utcHost) oct6 exampleStore)
  = check (H:=utcHost) oct6 exampleStore.
Proof. apply (check_same_day (H:=utcHost) oct6 oct6noon exampleStore). reflexivity. Defined.

Lemma broken_streak_witness :
  current Daily (sectionStreaks (check (H:=utcHost) oct9 brokenStore)) = 0
  /\ best Daily (sectionStreaks (check (H:=utcHost) oct9 brokenStore)) = 4.
Proof.
  apply (broken_streak (H:=utcHost) oct9 brokenStore Daily).
  - vm_compute. reflexivity.
  - by_evaluation.
Defined.

Lemma kind_without_boundary_untouched_witness :
  streakRecord Weekly (check (H:=utcHost) oct9 twoCounters) = (1, 3).
Proof.
  apply (kind_without_boundary_untouched (H:=utcHost) oct9 twoCounters Weekly).
  vm_compute. reflexivity.
Defined.

Lemma no_preview_after_boundary_witness :
  streakDisplay (check (H:=utcHost) oct9 exampleStore) Daily = 3.
Proof.
  apply (no_preview_after_boundary (H:=utcHost) oct9 exampleStore Daily).
  vm_compute. reflexivity.
Defined.

Lemma check_ok_witness :
  Forall itemOk (items (check (H:=utcHost) oct9 twoCounters)).
Proof. apply check_ok. by_evaluation. Defined.

Lemma increment_ok_witness :
  Forall itemOk (items (increment "b" twoCounters)).
Proof. apply increment_ok; by_evaluation. Defined.

Lemma decrement_ok_witness :
  Forall itemOk (items (decrement "b" twoCounters)).
Proof. apply decrement_ok; by_evaluation. Defined.

Lemma setCount_ok_witness :
  Forall itemOk (items (setCount reading (Some (Some 9)) twoCounters)).
Proof. apply setCount_ok; by_evaluation. Defined.

Lemma setTarget_ok_witness :
  Forall itemOk (items (setTarget reading (Some (Some 1)) twoCounters)).
Proof. apply setTarget_ok; by_evaluation. Defined.

Lemma saveEdit_ok_witness :
  Forall itemOk
    (items (saveEdit (H:=utcHost) reading oct9 "" Daily (Some 1) twoCounters)).
Proof. apply saveEdit_ok; by_evaluation. Defined.



Lemma buttons_saturate_witness :
  (Item.count pushups = Z.max 1 (Item.target pushups) ->
   increment "a" twoCounters = twoCounters)
  /\ (Item.count pushups = 0 -> decrement "a" twoCounters = twoCounters).
Proof. apply (buttons_saturate twoCounters pushups); by_evaluation. Defined.

Lemma setTarget_never_raises_progress_witness :
  exists i', items (setTarget reading (Some (Some 1)) twoCounters) !! 0%nat = Some i'
    /\ Item.count i' <= Item.count reading
    /\ (reading <> reading -> i' = reading)
    /\ (Some (Some 1) = None -> i' = reading).
Proof.
  apply (setTarget_never_raises_progress twoCounters reading (Some (Some 1)));
    [by_evaluation|by_evaluation|reflexivity].
Defined.

Lemma restart_round_trip_witness :
  initialStore (H:=utcHost) oct9 (persist twoCounters storageV2) = twoCounters.
Proof.
  apply restart_round_trip; [by_evaluation|by_evaluation|].
  unfold finiteStreaks, finite. vm_compute. repeat split; discriminate.
Defined.
